(** * targets-minimal: the minimal target selector

    A shallow embedding of [targets_minimal/new_targets_minimal.py]
    (class [TargetsMinimal]) and the properties of its geometry, its
    catalogue query, its formatter and its message loop.

    Layout: number interface, geometry ([query_bounds]), message splitting,
    the SQL text built by [calculate_targets] together with its relational
    meaning, [format_targets], the effectful part ([calculate_targets],
    [parse_msg], [start]) in a state-and-exception monad, the instance of
    the number interface on the real numbers, start-up ([__init__],
    [configure_db], [read_config_file]), and then the theorems. *)

From Stdlib Require Import Reals Lra QArith Qreals String Ascii List Bool Arith Lia.
From stdpp Require Import gmap strings.
Import ListNotations.

Local Open Scope string_scope.
Local Open Scope list_scope.

(** ** Numbers

    The program computes on Python and NumPy floats (IEEE doubles).  The
    embedding is parametric in the number type: every arithmetic operator,
    NumPy function and comparison the source applies is a field of
    [Floating].  Python has four separate comparison operators, and on
    NaN all four answer [False], so the four are four fields.  The
    structural results below hold for every implementation of the
    interface; the geometric ones are settled on the real numbers
    ([Floating_R] below), the usual idealisation of doubles. *)

Class Floating (F : Type) : Type := {
  lit : Q -> F;                       (* a numeric literal of the source *)
  fadd : F -> F -> F;
  fsub : F -> F -> F;
  fmul : F -> F -> F;
  fdiv : F -> F -> F;
  fneg : F -> F;
  pi : F;                             (* np.pi *)
  fsin : F -> F;                      (* np.sin, SQL SIN *)
  fcos : F -> F;                      (* np.cos, SQL COS *)
  farcsin : F -> F;                   (* np.arcsin *)
  facos : F -> F;                     (* SQL ACOS *)
  flt : F -> F -> bool;               (* <  *)
  fle : F -> F -> bool;               (* <= *)
  fgt : F -> F -> bool;               (* >  *)
  fge : F -> F -> bool;               (* >= *)
  fis_zero : F -> bool;               (* divisor test of Python's float division *)
  float_of_string : string -> option F (* the builtin float(); None: ValueError *)
}.

Declare Scope float_scope.
Delimit Scope float_scope with fl.
Infix "+" := fadd : float_scope.
Infix "-" := fsub : float_scope.
Infix "*" := fmul : float_scope.
Infix "/" := fdiv : float_scope.
Notation "- x" := (fneg x) : float_scope.
Infix "<?" := flt : float_scope.
Infix "<=?" := fle : float_scope.
Infix ">?" := fgt : float_scope.
Infix ">=?" := fge : float_scope.

Section Geometry.
Context {F : Type} `{Floating F}.

(** [np.deg2rad] and [np.rad2deg] multiply by the constant [pi/180]
    and [180/pi]. *)
Definition deg2rad (x : F) : F := (x * (pi / lit 180))%fl.
Definition rad2deg (x : F) : F := (x * (lit 180 / pi))%fl.

(** A bounding box is the four-element Python list
    [[ra_min, ra_max, dec_min, dec_max]]; the fields are its indices
    0 to 3. *)
Record Box : Type := mkBox {
  ra_min : F;
  ra_max : F;
  dec_min : F;
  dec_max : F
}.

(** [np.rad2deg(bounds[i])] converts the four entries. *)
Definition rad2deg_box (b : Box) : Box :=
  mkBox (rad2deg (ra_min b)) (rad2deg (ra_max b))
        (rad2deg (dec_min b)) (rad2deg (dec_max b)).

(** [TargetsMinimal.query_bounds], branch by branch.  [-np.pi/2.0] is
    [(-np.pi)/2.0]. *)
Definition query_bounds (ra dec r : F) : list Box :=
  if ((dec + r) >=? pi / lit 2)%fl then
    let dec_max := (pi / lit 2)%fl in
    let dec_min := (dec - r)%fl in
    let ra_min := lit 0 in
    let ra_max := (lit 2 * pi)%fl in
    [mkBox ra_min ra_max dec_min dec_max]
  else if ((dec - r) <=? (- pi) / lit 2)%fl then
    let dec_min := (pi / lit 2)%fl in
    let dec_max := (dec + r)%fl in
    let ra_min := lit 0 in
    let ra_max := (lit 2 * pi)%fl in
    [mkBox ra_min ra_max dec_min dec_max]
  else
    let dec_min := (dec - r)%fl in
    let dec_max := (dec + r)%fl in
    let ra_off := farcsin (fsin r / fcos dec)%fl in
    let ra_min := (ra - ra_off)%fl in
    let ra_max := (ra + ra_off)%fl in
    if (ra_min <? lit 0)%fl then
      let ra_min_0 := (lit 2 * pi - ra_min)%fl in
      let ra_max_0 := lit 0 in
      let ra_min_1 := lit 0 in
      let ra_max_1 := ra_max in
      [mkBox ra_min_0 ra_max_0 dec_min dec_max;
       mkBox ra_min_1 ra_max_1 dec_min dec_max]
    else if (ra_max >? lit 2 * pi)%fl then
      let ra_min_0 := ra_min in
      let ra_max_0 := (lit 2 * pi)%fl in
      let ra_min_1 := lit 0 in
      let ra_max_1 := (ra_max - lit 2 * pi)%fl in
      [mkBox ra_min_0 ra_max_0 dec_min dec_max;
       mkBox ra_min_1 ra_max_1 dec_min dec_max]
    else
      [mkBox ra_min ra_max dec_min dec_max].

(** The beam radius of [calculate_targets]:
    [0.5*(constants.c/(fecenter*1e6))/25.0].  [constants.c] and
    [fecenter] are Python floats, and Python's float division raises
    [ZeroDivisionError] on a zero divisor: [None] here. *)
Definition speed_of_light : F := lit 299792458.

Definition beam_radius (fecenter : F) : option F :=
  let hz := (fecenter * lit 1000000)%fl in
  if fis_zero hz then None
  else Some (lit (1 # 2) * (speed_of_light / hz) / lit 25)%fl.

End Geometry.

Arguments Box F : clear implicits.

(** ** Splitting a message

    [str.split(sep)] with a one-character separator: the pieces between
    the separators, empty pieces included; the empty string gives one
    empty piece. *)

Fixpoint split (sep : ascii) (s : string) : list string :=
  match s with
  | EmptyString => [EmptyString]
  | String c s' =>
      if Ascii.eqb c sep then EmptyString :: split sep s'
      else match split sep s' with
           | w :: ws => String c w :: ws
           | [] => [String c EmptyString]
           end
  end.

Definition colon : ascii := ":"%char.

(** ** The catalogue query

    [calculate_targets] formats an SQL text.  The text is represented by
    its syntax tree, one constructor per template of the source with the
    [{}] holes as arguments in the order of [.format(...)]; the tree's
    meaning on the table [target_list] is the relational reading of the
    text. *)

(** The [source_id] of a catalogue row, as [pd.read_sql] delivers it: a
    text (a column of dtype object) or an integer (a column of dtype
    int64). *)
Inductive ident : Type :=
| TextId (s : string)
| IntId (z : Z).

Coercion TextId : string >-> ident.

Section Catalogue.
Context {F : Type} `{Floating F}.

(** A row of [target_list]: columns [source_id], [ra], [decl],
    [dist_c]; coordinates in degrees. *)
Record Row : Type := mkRow {
  source_id : ident;
  ra : F;
  decl : F;
  dist_c : F
}.

(** [box_query], the inner SELECT. *)
Inductive BoxQuery : Type :=
| TwoBoxes (a0 a1 b0 b1 d0 d1 : F)
    (* WHERE ((ra > a0 AND ra < a1) OR (ra > b0 AND ra < b1))
       AND (decl > d0 AND decl < d1) *)
| OneBox (a0 a1 d0 d1 : F)
    (* WHERE (ra > a0 AND ra < a1) AND (decl > d0 AND decl < d1) *)
| WholeTable.
    (* no WHERE clause *)

(** [targets_query]: SELECT ... FROM (box_query) as T WHERE
    ACOS(SIN(RADIANS(decl))*SIN(s)+COS(RADIANS(decl))*COS(c)*COS(a-RADIANS(ra)))<radius *)
Record TargetsQuery : Type := mkTargetsQuery {
  from_query : BoxQuery;
  sin_arg : F;
  cos_arg : F;
  ra_arg : F;
  radius : F
}.

(** The three-way choice on [len(bounds)]: more than one box (the first
    two are used), exactly one, none. *)
Definition box_query (bounds : list (Box F)) : BoxQuery :=
  match bounds with
  | b0 :: b1 :: _ =>
      let box_1 := rad2deg_box b0 in
      let box_2 := rad2deg_box b1 in
      TwoBoxes (ra_min box_1) (ra_max box_1) (ra_min box_2) (ra_max box_2)
               (dec_min box_1) (dec_max box_1)
  | [b] =>
      let box := rad2deg_box b in
      OneBox (ra_min box) (ra_max box) (dec_min box) (dec_max box)
  | [] => WholeTable
  end.

Definition targets_query (bounds : list (Box F)) (ra_deg dec_deg beam_radius : F)
  : TargetsQuery :=
  mkTargetsQuery (box_query bounds) (deg2rad dec_deg) (deg2rad dec_deg)
                 (deg2rad ra_deg) beam_radius.

(** Relational meaning.  SQL's [RADIANS] is [deg2rad]. *)
Definition between (lo hi x : F) : bool := (x >? lo)%fl && (x <? hi)%fl.

Definition box_where (q : BoxQuery) (row : Row) : bool :=
  match q with
  | TwoBoxes a0 a1 b0 b1 d0 d1 =>
      (between a0 a1 (ra row) || between b0 b1 (ra row))
      && between d0 d1 (decl row)
  | OneBox a0 a1 d0 d1 =>
      between a0 a1 (ra row) && between d0 d1 (decl row)
  | WholeTable => true
  end.

Definition separation_where (q : TargetsQuery) (row : Row) : bool :=
  (facos (fsin (deg2rad (decl row)) * fsin (sin_arg q)
          + fcos (deg2rad (decl row)) * fcos (cos_arg q)
            * fcos (ra_arg q - deg2rad (ra row)))
   <? radius q)%fl.

Definition run_box_query (q : BoxQuery) (target_list : list Row) : list Row :=
  List.filter (box_where q) target_list.

(** The rows the outer WHERE clause is evaluated on are the rows of the
    derived table [T]. *)
Definition derived_table (q : TargetsQuery) (target_list : list Row) : list Row :=
  run_box_query (from_query q) target_list.

Definition run_targets_query (q : TargetsQuery) (target_list : list Row) : list Row :=
  List.filter (separation_where q) (derived_table q target_list).

(** Membership of a catalogue row in one box (degrees), with the strict
    comparisons of the SQL text. *)
Definition in_box (b : Box F) (row : Row) : bool :=
  between (ra_min b) (ra_max b) (ra row)
  && between (dec_min b) (dec_max b) (decl row).

End Catalogue.

Arguments Row F : clear implicits.
Arguments BoxQuery F : clear implicits.
Arguments TargetsQuery F : clear implicits.

(** *** The text of the query, clause by clause

    The SQL text of each template as a tree of SELECT statements,
    conditions and expressions, and the evaluation of such a tree on the
    table: a SELECT evaluates its WHERE condition on every row of its
    FROM source, and the source of the outer SELECT is the result of the
    subquery.  Every SELECT of the source lists the four columns
    [source_id], [ra], [decl], [dist_c], so the projection keeps the rows
    as they are. *)

Section SqlText.
Context {F : Type} `{Floating F}.

Inductive sql_column : Type :=
| Col_ra
| Col_decl.

Inductive sql_expr : Type :=
| SqlColumn (c : sql_column)          (* `ra`, `decl` *)
| SqlNumber (x : F)                   (* a number formatted into the text *)
| SqlRadians (e : sql_expr)           (* RADIANS(e) *)
| SqlSin (e : sql_expr)               (* SIN(e) *)
| SqlCos (e : sql_expr)               (* COS(e) *)
| SqlAcos (e : sql_expr)              (* ACOS(e) *)
| SqlAdd (e1 e2 : sql_expr)           (* e1+e2 *)
| SqlSub (e1 e2 : sql_expr)           (* e1-e2 *)
| SqlMul (e1 e2 : sql_expr).          (* e1*e2 *)

Inductive sql_cond : Type :=
| SqlGt (e1 e2 : sql_expr)            (* e1 > e2 *)
| SqlLt (e1 e2 : sql_expr)            (* e1 < e2 *)
| SqlAnd (c1 c2 : sql_cond)           (* c1 AND c2 *)
| SqlOr (c1 c2 : sql_cond).           (* c1 OR c2 *)

Inductive sql_select : Type :=
| SelectFromTable (condition : option sql_cond)
    (* SELECT ... FROM target_list [WHERE condition] *)
| SelectFromSelect (subquery : sql_select) (condition : option sql_cond).
    (* SELECT ... FROM (subquery) as T [WHERE condition] *)

(** (`c` > lo AND `c` < hi) *)
Definition sql_between (c : sql_column) (lo hi : F) : sql_cond :=
  SqlAnd (SqlGt (SqlColumn c) (SqlNumber lo)) (SqlLt (SqlColumn c) (SqlNumber hi)).

(** The three texts of [box_query]. *)
Definition sql_of_box_query (q : BoxQuery F) : sql_select :=
  match q with
  | TwoBoxes a0 a1 b0 b1 d0 d1 =>
      SelectFromTable
        (Some (SqlAnd (SqlOr (sql_between Col_ra a0 a1) (sql_between Col_ra b0 b1))
                      (sql_between Col_decl d0 d1)))
  | OneBox a0 a1 d0 d1 =>
      SelectFromTable
        (Some (SqlAnd (sql_between Col_ra a0 a1) (sql_between Col_decl d0 d1)))
  | WholeTable => SelectFromTable None
  end.

(** The text of [targets_query]:
    ACOS(SIN(RADIANS(`decl`))*SIN(s)+COS(RADIANS(`decl`))*COS(c)*COS(a-RADIANS(`ra`)))<radius
    over the subquery. *)
Definition sql_of_targets_query (q : TargetsQuery F) : sql_select :=
  SelectFromSelect (sql_of_box_query (from_query q))
    (Some (SqlLt
             (SqlAcos
                (SqlAdd
                   (SqlMul (SqlSin (SqlRadians (SqlColumn Col_decl)))
                           (SqlSin (SqlNumber (sin_arg q))))
                   (SqlMul (SqlMul (SqlCos (SqlRadians (SqlColumn Col_decl)))
                                   (SqlCos (SqlNumber (cos_arg q))))
                           (SqlCos (SqlSub (SqlNumber (ra_arg q))
                                           (SqlRadians (SqlColumn Col_ra)))))))
             (SqlNumber (radius q)))).

Fixpoint eval_expr (e : sql_expr) (row : Row F) : F :=
  match e with
  | SqlColumn Col_ra => ra row
  | SqlColumn Col_decl => decl row
  | SqlNumber x => x
  | SqlRadians e => deg2rad (eval_expr e row)
  | SqlSin e => fsin (eval_expr e row)
  | SqlCos e => fcos (eval_expr e row)
  | SqlAcos e => facos (eval_expr e row)
  | SqlAdd e1 e2 => (eval_expr e1 row + eval_expr e2 row)%fl
  | SqlSub e1 e2 => (eval_expr e1 row - eval_expr e2 row)%fl
  | SqlMul e1 e2 => (eval_expr e1 row * eval_expr e2 row)%fl
  end.

Fixpoint eval_cond (c : sql_cond) (row : Row F) : bool :=
  match c with
  | SqlGt e1 e2 => (eval_expr e1 row >? eval_expr e2 row)%fl
  | SqlLt e1 e2 => (eval_expr e1 row <? eval_expr e2 row)%fl
  | SqlAnd c1 c2 => eval_cond c1 row && eval_cond c2 row
  | SqlOr c1 c2 => eval_cond c1 row || eval_cond c2 row
  end.

Definition eval_where (condition : option sql_cond) (rows : list (Row F)) : list (Row F) :=
  match condition with
  | Some c => List.filter (eval_cond c) rows
  | None => rows
  end.

Fixpoint eval_select (q : sql_select) (target_list : list (Row F)) : list (Row F) :=
  match q with
  | SelectFromTable condition => eval_where condition target_list
  | SelectFromSelect subquery condition =>
      eval_where condition (eval_select subquery target_list)
  end.

(** The rows on which an ACOS is computed while a query is evaluated:
    the rows that reach a WHERE clause whose text contains ACOS. *)
Fixpoint expr_has_acos (e : sql_expr) : bool :=
  match e with
  | SqlColumn _ | SqlNumber _ => false
  | SqlAcos _ => true
  | SqlRadians e | SqlSin e | SqlCos e => expr_has_acos e
  | SqlAdd e1 e2 | SqlSub e1 e2 | SqlMul e1 e2 => expr_has_acos e1 || expr_has_acos e2
  end.

Fixpoint cond_has_acos (c : sql_cond) : bool :=
  match c with
  | SqlGt e1 e2 | SqlLt e1 e2 => expr_has_acos e1 || expr_has_acos e2
  | SqlAnd c1 c2 | SqlOr c1 c2 => cond_has_acos c1 || cond_has_acos c2
  end.

Definition where_has_acos (condition : option sql_cond) : bool :=
  match condition with
  | Some c => cond_has_acos c
  | None => false
  end.

Fixpoint acos_rows (q : sql_select) (target_list : list (Row F)) : list (Row F) :=
  match q with
  | SelectFromTable condition =>
      if where_has_acos condition then target_list else []
  | SelectFromSelect subquery condition =>
      acos_rows subquery target_list ++
      (if where_has_acos condition then eval_select subquery target_list else [])
  end.

End SqlText.

Arguments sql_expr F : clear implicits.
Arguments sql_cond F : clear implicits.
Arguments sql_select F : clear implicits.

(** ** Formatting

    [json.dumps] turns a list of dicts into a JSON text; the text is
    represented by its value tree.  A dict keeps its insertion order. *)

Section Formatting.
Context {F : Type} `{Floating F}.

#[warnings="-register-all"] Inductive json : Type :=
| JString (s : string)
| JNumber (x : F)
| JInteger (z : Z)
| JObject (fields : list (string * json))
| JArray (items : list json).

Definition dict : Type := list (string * json).

Definition json_dumps (l : list dict) : json := JArray (map JObject l).

(** An element of the array [df.to_numpy()], and a row of that array
    (indices 0 to 3). *)
Inductive cell : Type :=
| TextCell (s : string)
| IntCell (z : Z)
| FloatCell (x : F).

Record ArrayRow : Type := mkArrayRow {
  cell0 : cell;
  cell1 : cell;
  cell2 : cell;
  cell3 : cell
}.

Definition is_integer_id (row : Row F) : bool :=
  match source_id row with
  | IntId _ => true
  | TextId _ => false
  end.

(** [df.to_numpy()]: the array has the common dtype of the four columns.
    [ra], [decl] and [dist_c] are float64.  When the [source_id] column is
    int64 the common dtype is float64 and each id is converted to the
    nearest float64, which is [lit] of the integer; otherwise the array
    has dtype object and holds the elements as they are. *)
Definition to_numpy (df : list (Row F)) : list ArrayRow :=
  if forallb is_integer_id df then
    map (fun row =>
           mkArrayRow
             (match source_id row with
              | IntId z => FloatCell (lit (inject_Z z))
              | TextId s => TextCell s
              end)
             (FloatCell (ra row)) (FloatCell (decl row)) (FloatCell (dist_c row)))
        df
  else
    map (fun row =>
           mkArrayRow
             (match source_id row with
              | IntId z => IntCell z
              | TextId s => TextCell s
              end)
             (FloatCell (ra row)) (FloatCell (decl row)) (FloatCell (dist_c row)))
        df.

(** What [json.dumps] writes for an element: a string, an integer, or a
    float (a [np.float64] is written like a Python float). *)
Definition json_of_cell (c : cell) : json :=
  match c with
  | TextCell s => JString s
  | IntCell z => JInteger z
  | FloatCell x => JNumber x
  end.

(** The dict [source_i] of one loop iteration: [df[i, 0]], [df[i, 1]]
    and [df[i, 2]]. *)
Definition source_dict (row : ArrayRow) : dict :=
  [("source_id", json_of_cell (cell0 row));
   ("ra", json_of_cell (cell1 row));
   ("dec", json_of_cell (cell2 row))].

(** [format_targets]: [output_list] starts as [[pointing_dict]], [df] is
    replaced by [df.to_numpy()], and the loop over [range(df.shape[0])]
    appends [source_i] for row [i]. *)
Definition format_step (df : list ArrayRow) (output_list : list dict) (i : nat)
  : list dict :=
  match df !! i with
  | Some row => output_list ++ [source_dict row]
  | None => output_list
  end.

Definition output_list (df : list ArrayRow) (pointing_dict : dict) : list dict :=
  fold_left (format_step df) (seq 0 (length df)) [pointing_dict].

Definition format_targets (df : list (Row F)) (pointing_dict : dict) : json :=
  let df := to_numpy df in
  json_dumps (output_list df pointing_dict).

End Formatting.

Arguments json F : clear implicits.
Arguments dict F : clear implicits.
Arguments cell F : clear implicits.
Arguments ArrayRow F : clear implicits.

(** ** The listener

    Logging, the Redis key-value store, the outbound channel and the
    catalogue are side effects.  The world is threaded through a
    state-and-exception monad: an uncaught Python exception ends the
    enclosing calls and keeps the effects made so far. *)

Section Listener.
Context {F : Type} `{Floating F}.

(** One constructor per logging call of the source; the arguments are
    the values formatted into the text.  The elapsed seconds of the
    'Retrieved' line are wall-clock time and are left out. *)
Inductive log_entry : Type :=
| Info_Starting
| Info_Listening (channel : string)
| Info_Processing (msg_data : string)
| Warning_Unrecognised (msg_data : string)
| Info_Calculating (target_name : string) (ra_deg dec_deg : F)
| Info_ApplyingBoundingBox
| Info_Retrieved (n : nat).

Record World : Type := mkWorld {
  log : list log_entry;                  (* lines written so far, oldest first *)
  redis : gmap string (json F);          (* keys set on the Redis server *)
  published : list (string * string);    (* (channel, message), oldest first *)
  executed : list (TargetsQuery F)       (* queries sent to the catalogue *)
}.

Inductive exn : Type :=
| ValueError (s : string)     (* float() on a non-numeric string *)
| ZeroDivisionError           (* float division by zero *)
| CatalogueError.             (* pd.read_sql / engine.begin failed *)

Inductive result (A : Type) : Type :=
| Return (a : A)
| Raise (e : exn).
Arguments Return {A} a.
Arguments Raise {A} e.

Definition M (A : Type) : Type := World -> result A * World.

Definition ret {A} (a : A) : M A := fun w => (Return a, w).
Definition raise {A} (e : exn) : M A := fun w => (Raise e, w).
Definition bind {A B} (m : M A) (k : A -> M B) : M B :=
  fun w => match m w with
           | (Return a, w') => k a w'
           | (Raise e, w') => (Raise e, w')
           end.

Notation "x <- m ;; k" := (bind m (fun x => k))
  (at level 100, m at next level, right associativity).
Notation "m ;; k" := (bind m (fun _ => k))
  (at level 100, right associativity).

Definition write_log (e : log_entry) : M unit :=
  fun w => (Return tt, mkWorld (log w ++ [e]) (redis w) (published w) (executed w)).

Definition redis_set (key : string) (value : json F) : M unit :=
  fun w => (Return tt, mkWorld (log w) (<[key := value]> (redis w)) (published w) (executed w)).

Definition redis_publish (channel message : string) : M unit :=
  fun w => (Return tt, mkWorld (log w) (redis w) (published w ++ [(channel, message)]) (executed w)).

(** The fields of [self].  [engine] stands for the catalogue behind
    [pd.read_sql(targets_query, con=connection)]: given the number of
    queries executed before and the query, it answers with the
    resulting dataframe or fails ([None]). *)
Record TargetsMinimal : Type := mkTargetsMinimal {
  pointing_channel : string;
  targets_channel : string;
  engine : nat -> TargetsQuery F -> option (list (Row F))
}.

Definition read_sql (self : TargetsMinimal) (q : TargetsQuery F) : M (list (Row F)) :=
  fun w =>
    let w' := mkWorld (log w) (redis w) (published w) (executed w ++ [q]) in
    match engine self (length (executed w)) q with
    | Some df => (Return df, w')
    | None => (Raise CatalogueError, w')
    end.

(** [float(s)] *)
Definition float (s : string) : M F :=
  match float_of_string s with
  | Some x => ret x
  | None => raise (ValueError s)
  end.

Definition division (fecenter : F) : M F :=
  match beam_radius fecenter with
  | Some r => ret r
  | None => raise ZeroDivisionError
  end.

Definition targets_key (obsid : string) : string := "targets:" +:+ obsid.

(** [TargetsMinimal.calculate_targets] *)
Definition calculate_targets (self : TargetsMinimal)
    (subarray target_name : string) (ra_deg dec_deg fecenter : F) (obsid : string)
  : M unit :=
  write_log (Info_Calculating target_name ra_deg dec_deg) ;;
  beam_radius <- division fecenter ;;
  write_log Info_ApplyingBoundingBox ;;
  let bounds := query_bounds (deg2rad ra_deg) (deg2rad dec_deg) beam_radius in
  let targets_query := targets_query bounds ra_deg dec_deg beam_radius in
  target_list <- read_sql self targets_query ;;
  write_log (Info_Retrieved (length target_list)) ;;
  let pointing_dict : dict F :=
    [("source_id", JString target_name); ("ra", JNumber ra_deg); ("dec", JNumber dec_deg)] in
  let json_list := format_targets target_list pointing_dict in
  redis_set (targets_key obsid) json_list ;;
  redis_publish (targets_channel self) (targets_key obsid).

(** A message delivered by [ps.listen()]; only ['data'] is read. *)
Record Message : Type := mkMessage { data : string }.

(** [TargetsMinimal.parse_msg]: the seven-element pattern is the test
    [len(msg_components) == 7] followed by the reads of indices 0 to 6. *)
Definition parse_msg (self : TargetsMinimal) (msg : Message) : M unit :=
  let msg_data := data msg in
  let msg_components := split colon msg_data in
  match msg_components with
  | [telescope_name; subarray; pktstart_ts; target_name; c4; c5; c6] =>
      write_log (Info_Processing msg_data) ;;
      ra_deg <- float c4 ;;
      dec_deg <- float c5 ;;
      fecenter <- float c6 ;;
      let obsid := telescope_name +:+ ":" +:+ subarray +:+ ":" +:+ pktstart_ts in
      calculate_targets self subarray target_name ra_deg dec_deg fecenter obsid
  | _ => write_log (Warning_Unrecognised msg_data)
  end.

(** [TargetsMinimal.start]: the loop [for msg in ps.listen()] on a
    finite prefix [msgs] of the messages that arrive.  The loop has no
    handler: an exception raised by [parse_msg] leaves it. *)
Inductive Outcome : Type :=
| Listening (w : World)
    (* every message of the prefix was handled; waiting for the next *)
| Crashed (e : exn) (unread : list Message) (w : World).
    (* [e] left the loop; [unread] were never handed to [parse_msg] *)

Fixpoint listen_loop (self : TargetsMinimal) (msgs : list Message) (w : World) : Outcome :=
  match msgs with
  | [] => Listening w
  | msg :: rest =>
      match parse_msg self msg w with
      | (Return _, w') => listen_loop self rest w'
      | (Raise e, w') => Crashed e rest w'
      end
  end.

Definition start (self : TargetsMinimal) (msgs : list Message) (w : World) : Outcome :=
  match (write_log Info_Starting ;;
         write_log (Info_Listening (pointing_channel self))) w with
  | (Return _, w') => listen_loop self msgs w'
  | (Raise e, w') => Crashed e msgs w'
  end.

Definition world_of (o : Outcome) : World :=
  match o with
  | Listening w => w
  | Crashed _ _ w => w
  end.

Definition still_listening (o : Outcome) : bool :=
  match o with
  | Listening _ => true
  | Crashed _ _ _ => false
  end.

Definition empty_world : World := mkWorld [] ∅ [] [].

End Listener.

Arguments World F : clear implicits.
Arguments log_entry F : clear implicits.
Arguments TargetsMinimal F : clear implicits.
Arguments Outcome F : clear implicits.
Arguments M F A : clear implicits.
Arguments Return {A} a.
Arguments Raise {A} e.

(** ** The real numbers as number type

    Comparisons are decided by the order of [R].  The instance is the
    idealisation of doubles and departs from them where a double is not
    a real number:
    - [asin] and [acos] are total on [R]; they are [np.arcsin] and SQL's
      ACOS on [-1, 1] only, where NumPy answers nan and SQL NULL outside.
      A statement on [R] that runs [query_bounds] through its last branch
      either has hypotheses that put the argument of arcsin in [-1, 1] or
      says so;
    - [float] reads the float syntax of Python on ASCII text: surrounding
      whitespace, a sign, digits with single underscores between them, a
      point, an exponent.  The words inf, infinity and nan, which Python
      reads as doubles that are no real numbers, and digits outside
      ASCII are rejected here; the concrete runs below use neither;
    - there is no rounding and no overflow. *)

Definition Rltb (x y : R) : bool := if Rlt_dec x y then true else false.
Definition Rleb (x y : R) : bool := if Rle_dec x y then true else false.
Definition Rgtb (x y : R) : bool := if Rgt_dec x y then true else false.
Definition Rgeb (x y : R) : bool := if Rge_dec x y then true else false.
Definition Rzerob (x : R) : bool := if Req_dec_T x 0%R then true else false.

Definition digit (c : ascii) : option Z :=
  let n := nat_of_ascii c in
  if ((48 <=? n) && (n <=? 57))%nat then Some (Z.of_nat (n - 48)) else None.

(** The ASCII characters that [float] strips: codes 9 to 13 and 28 to 32. *)
Definition is_space (c : ascii) : bool :=
  let n := nat_of_ascii c in
  (((9 <=? n) && (n <=? 13)) || ((28 <=? n) && (n <=? 32)))%nat.

Fixpoint lstrip (s : string) : string :=
  match s with
  | EmptyString => EmptyString
  | String c s' => if is_space c then lstrip s' else s
  end.

Fixpoint rstrip (s : string) : string :=
  match s with
  | EmptyString => EmptyString
  | String c s' =>
      match rstrip s' with
      | EmptyString => if is_space c then EmptyString else String c EmptyString
      | t => String c t
      end
  end.

(** digitpart ::= digit (["_"] digit)*.  After a first digit: the value
    read so far, the number of digits read, and the text that follows. *)
Fixpoint digitpart_tail (s : string) (acc : Z) (n : nat) : Z * nat * string :=
  match s with
  | EmptyString => (acc, n, s)
  | String c s' =>
      match digit c with
      | Some d => digitpart_tail s' (10 * acc + d)%Z (S n)
      | None =>
          if Ascii.eqb c "_"%char then
            match s' with
            | String c2 s'' =>
                match digit c2 with
                | Some d => digitpart_tail s'' (10 * acc + d)%Z (S n)
                | None => (acc, n, s)
                end
            | EmptyString => (acc, n, s)
            end
          else (acc, n, s)
      end
  end.

Definition digitpart (s : string) (acc : Z) : option (Z * nat * string) :=
  match s with
  | String c s' =>
      match digit c with
      | Some d => Some (digitpart_tail s' (10 * acc + d)%Z 1%nat)
      | None => None
      end
  | EmptyString => None
  end.

(** number ::= [digitpart] "." digitpart | digitpart ["."].  The digits
    of the number without the point, the number of digits after the
    point, and the text that follows. *)
Definition number (s : string) : option (Z * nat * string) :=
  match digitpart s 0 with
  | Some (v, _, rest) =>
      match rest with
      | String "."%char rest' =>
          match digitpart rest' v with
          | Some (m, k, rest'') => Some (m, k, rest'')
          | None => Some (v, O, rest')
          end
      | _ => Some (v, O, rest)
      end
  | None =>
      match s with
      | String "."%char rest' => digitpart rest' 0
      | _ => None
      end
  end.

(** exponent ::= ("e" | "E") ["+" | "-"] digitpart, up to the end of the
    text; no exponent is the exponent 0. *)
Definition exponent (s : string) : option Z :=
  match s with
  | EmptyString => Some 0%Z
  | String c s' =>
      if Ascii.eqb c "e"%char || Ascii.eqb c "E"%char then
        match s' with
        | String "-"%char s'' =>
            match digitpart s'' 0 with
            | Some (e, _, EmptyString) => Some (- e)%Z
            | _ => None
            end
        | String "+"%char s'' =>
            match digitpart s'' 0 with
            | Some (e, _, EmptyString) => Some e
            | _ => None
            end
        | _ =>
            match digitpart s' 0 with
            | Some (e, _, EmptyString) => Some e
            | _ => None
            end
        end
      else None
  end.

Definition unsigned_decimal (s : string) : option Q :=
  match number s with
  | Some (m, k, rest) =>
      match exponent rest with
      | Some e =>
          if (0 <=? e)%Z
          then Some (Qmake (m * 10 ^ e) (Z.to_pos (10 ^ Z.of_nat k)))
          else Some (Qmake m (Z.to_pos (10 ^ Z.of_nat k * 10 ^ (- e))))
      | None => None
      end
  | None => None
  end.

Definition decimal (s : string) : option Q :=
  match rstrip (lstrip s) with
  | String "-"%char s' => option_map Qopp (unsigned_decimal s')
  | String "+"%char s' => unsigned_decimal s'
  | s' => unsigned_decimal s'
  end.

#[export] Instance Floating_R : Floating R := {|
  lit := Q2R;
  fadd := Rplus;
  fsub := Rminus;
  fmul := Rmult;
  fdiv := Rdiv;
  fneg := Ropp;
  pi := PI;
  fsin := sin;
  fcos := cos;
  farcsin := asin;
  facos := acos;
  flt := Rltb;
  fle := Rleb;
  fgt := Rgtb;
  fge := Rgeb;
  fis_zero := Rzerob;
  float_of_string := fun s => option_map Q2R (decimal s)
|}.

(** Angular separation of two points of the sphere (radians), by the
    spherical law of cosines. *)
Definition separation (ra1 dec1 ra2 dec2 : R) : R :=
  acos (sin dec1 * sin dec2 + cos dec1 * cos dec2 * cos (ra1 - ra2))%R.

(** A point (radians) lies in a box of [query_bounds] (radians): with the
    strict comparisons of the SQL filter, and with the bounds included. *)
Definition inside_open (b : Box R) (ra dec : R) : Prop :=
  (ra_min b < ra < ra_max b /\ dec_min b < dec < dec_max b)%R.

Definition inside_closed (b : Box R) (ra dec : R) : Prop :=
  (ra_min b <= ra <= ra_max b /\ dec_min b <= dec <= dec_max b)%R.

(** ** Vocabulary of the properties *)

Section Vocabulary.
Context {F : Type} `{Floating F}.

(** The exact field-of-view test for a pointing at [(ra_deg, dec_deg)]:
    angular separation from the catalogue row below [beam_radius]. *)
Definition within_radius (ra_deg dec_deg beam_radius : F) (row : Row F) : bool :=
  (facos (fsin (deg2rad (decl row)) * fsin (deg2rad dec_deg)
          + fcos (deg2rad (decl row)) * fcos (deg2rad dec_deg)
            * fcos (deg2rad ra_deg - deg2rad (ra row)))
   <? beam_radius)%fl.

(** The rectangular pre-filter: the row is in one of the boxes. *)
Definition in_some_box (bounds : list (Box F)) (row : Row F) : bool :=
  existsb (fun b => in_box (rad2deg_box b) row) bounds.

(** A message is handled when [parse_msg] returns normally and the loop
    goes on with the messages that follow. *)
Definition handled (self : TargetsMinimal F) (msg : Message)
    (rest : list Message) (w : World F) : Prop :=
  exists w', parse_msg self msg w = (Return tt, w') /\
             listen_loop self (msg :: rest) w = listen_loop self rest w'.

End Vocabulary.

Section Entries.
Context {F : Type} `{Floating F}.



(** Stage 1 in the words of the specification: the row lies, by strict
    comparisons on [ra] and [decl], within one of the bounding boxes
    taken in degrees. *)
Definition degrees (x : F) : F := (x * (lit 180 / pi))%fl.

Definition passes_stage1 (bounds : list (Box F)) (row : Row F) : bool :=
  existsb (fun b =>
             (ra row >? degrees (ra_min b))%fl && (ra row <? degrees (ra_max b))%fl
             && (decl row >? degrees (dec_min b))%fl
             && (decl row <? degrees (dec_max b))%fl)
          bounds.

(** The first of the given fields that [float] rejects. *)
Definition first_rejected (fields : list string) : option string :=
  List.find (fun c => match float_of_string c with
                      | Some _ => false
                      | None => true
                      end) fields.

End Entries.

(** ** Concrete runs *)

Definition example_message : Message :=
  mkMessage "MeerKAT:array1:169000000:3C286:202.78:30.51:1420.0".

Definition non_numeric_message : Message :=
  mkMessage "MeerKAT:array1:169000000:3C286:abc:30.51:1420.0".

(** Two fields that [float] rejects: the RA and the frequency. *)
Definition two_non_numeric_message : Message :=
  mkMessage "MeerKAT:array1:169000000:3C286:abc:30.51:xyz".

(** The same observation id as [example_message], another pointing. *)
Definition second_example_message : Message :=
  mkMessage "MeerKAT:array1:169000000:J1939-6342:294.85:-63.71:1420.0".

Definition six_field_message : Message :=
  mkMessage "MeerKAT:array1:169000000:3C286:202.78:30.51".

Definition eight_field_message : Message :=
  mkMessage "MeerKAT:array1:169000000:3C286:202.78:30.51:1420.0:extra".

(** A selector whose catalogue fails on the first query and answers with
    an empty dataframe from then on. *)
Definition flaky_selector : TargetsMinimal R :=
  mkTargetsMinimal "pointings" "targets"
    (fun n _ => match n with O => None | S _ => Some [] end).

(** The beam radius and the query of [example_message]. *)
Definition example_radius : R :=
  (Q2R (1 # 2) * (Q2R 299792458 / (Q2R 1420.0 * Q2R 1000000)) / Q2R 25)%R.

Definition example_query : TargetsQuery R :=
  targets_query
    (query_bounds (deg2rad (Q2R 202.78)) (deg2rad (Q2R 30.51)) example_radius)
    (Q2R 202.78) (Q2R 30.51) example_radius.

(** A catalogue row off the meridian RA 0 = 360 degrees and off the north
    pole. *)
Definition interior_row (row : Row R) : Prop :=
  (0 < ra row < 360 /\ -90 <= decl row < 90)%R.

(** Number of occurrences of a character in a string. *)
Fixpoint occurrences (c : ascii) (s : string) : nat :=
  match s with
  | EmptyString => 0
  | String a s' => (if Ascii.eqb a c then 1 else 0) + occurrences c s'
  end.

(** A selector whose catalogue always answers with the same dataframe. *)
Definition steady_selector : TargetsMinimal R :=
  mkTargetsMinimal "pointings" "targets"
    (fun _ _ => Some [mkRow "4472832130942575872" (Q2R 202.5) (Q2R 30.25) (Q2R 12.5)]).

Section Invariants.
Context {F : Type} `{Floating F}.

(** Every notification sent so far went to the targets channel and names
    a key that is in Redis. *)
Definition notifications_stored (self : TargetsMinimal F) (w : World F) : Prop :=
  Forall (fun n => fst n = targets_channel self /\ is_Some (redis w !! snd n))
         (published w).

End Invariants.

Definition zero_frequency_message : Message :=
  mkMessage "MeerKAT:array1:169000000:3C286:202.78:30.51:0.0".

(** What [steady_selector] stores for [example_message]. *)
Definition example_payload : json R :=
  JArray [JObject [("source_id", JString "3C286"); ("ra", JNumber (Q2R 202.78));
                   ("dec", JNumber (Q2R 30.51))];
          JObject [("source_id", JString "4472832130942575872");
                   ("ra", JNumber (Q2R 202.5)); ("dec", JNumber (Q2R 30.25))]].

Definition example_key : string := "targets:MeerKAT:array1:169000000".




(** ** Start-up

    [__init__], [configure_db] and [read_config_file].  The file system,
    the YAML parser and SQLAlchemy are the host: [open_file] answers with
    the text of a file or fails ([IOError]), [safe_load] with the
    document or the message of a [yaml.YAMLError], [create_engine]
    stands for [create_engine(URL( **cfg))] on a mapping.  The code tells a
    mapping from everything else and nothing more, so the scalars of a
    document are kept as text. *)

#[warnings="-register-all"] Inductive pyvalue : Type :=
| PyNone
| PyScalar (text : string)
| PyList (items : list pyvalue)
| PyDict (entries : gmap string pyvalue).

Inductive startup_exn : Type :=
| UnpackValueError      (* redis_host, redis_port = ... : not two values *)
| SubscriptTypeError    (* cfg['mysql'] on a document that is no mapping *)
| MysqlKeyError         (* cfg['mysql'] on a mapping without that key *)
| MappingTypeError      (* URL( **cfg) on a value that is no mapping *)
| EngineCreationError.  (* URL or create_engine rejected the mapping *)

Inductive startup_result (A : Type) : Type :=
| Started (a : A)
| Failed (e : startup_exn).
Arguments Started {A} a.
Arguments Failed {A} e.

Inductive startup_log : Type :=
| Info_Initialising
| Error_ConfigNotFound
| Error_Yaml (message : string).

Record StartupWorld : Type := mkStartupWorld {
  startup_lines : list startup_log;   (* lines written so far, oldest first *)
  opened : list string                (* paths handed to open(), oldest first *)
}.

Section Startup.
Context {F : Type} `{Floating F}.

Record Host : Type := mkHost {
  open_file : string -> option string;
  safe_load : string -> pyvalue + string;
  create_engine : gmap string pyvalue ->
                  option (nat -> TargetsQuery F -> option (list (Row F)))
}.

Definition startup_write (e : startup_log) (sw : StartupWorld) : StartupWorld :=
  mkStartupWorld (startup_lines sw ++ [e]) (opened sw).

(** [read_config_file]: both handlers log and fall through, so the
    function returns [None]; the subscript [cfg['mysql']] is covered by
    neither handler. *)
Definition read_config_file (host : Host) (config_file : string) (sw : StartupWorld)
  : startup_result pyvalue * StartupWorld :=
  let sw := mkStartupWorld (startup_lines sw) (opened sw ++ [config_file]) in
  match open_file host config_file with
  | None => (Started PyNone, startup_write Error_ConfigNotFound sw)
  | Some f =>
      match safe_load host f with
      | inr E => (Started PyNone, startup_write (Error_Yaml E) sw)
      | inl cfg =>
          match cfg with
          | PyDict entries =>
              match entries !! "mysql" with
              | Some section => (Started section, sw)
              | None => (Failed MysqlKeyError, sw)
              end
          | _ => (Failed SubscriptTypeError, sw)
          end
      end
  end.

(** [configure_db]: the engine that becomes [self.engine]. *)
Definition configure_db (host : Host) (config_file : string) (sw : StartupWorld)
  : startup_result (nat -> TargetsQuery F -> option (list (Row F))) * StartupWorld :=
  match read_config_file host config_file sw with
  | (Started cfg, sw') =>
      match cfg with
      | PyDict entries =>
          match create_engine host entries with
          | Some engine => (Started engine, sw')
          | None => (Failed EngineCreationError, sw')
          end
      | _ => (Failed MappingTypeError, sw')
      end
  | (Failed e, sw') => (Failed e, sw')
  end.

(** The object built by [__init__]: the Redis endpoint and the fields
    used by the listener. *)
Record Selector : Type := mkSelector {
  redis_host : string;
  redis_port : string;
  listener : TargetsMinimal F
}.

Definition __init__ (host : Host)
    (redis_endpoint pointing_channel targets_channel config_file : string)
    (sw : StartupWorld) : startup_result Selector * StartupWorld :=
  let sw := startup_write Info_Initialising sw in
  match split colon redis_endpoint with
  | [redis_host; redis_port] =>
      match configure_db host config_file sw with
      | (Started engine, sw') =>
          (Started (mkSelector redis_host redis_port
                      (mkTargetsMinimal pointing_channel targets_channel engine)), sw')
      | (Failed e, sw') => (Failed e, sw')
      end
  | _ => (Failed UnpackValueError, sw)
  end.

End Startup.

Arguments Host F : clear implicits.
Arguments Selector F : clear implicits.

(** A host with one configuration file. *)
Definition example_host : Host R :=
  mkHost
    (fun path =>
       if String.eqb path "config.yml"
       then Some "mysql: {drivername: mysql, host: localhost}"
       else if String.eqb path "redis.yml" then Some "redis: {host: localhost}"
       else None)
    (fun text =>
       if String.eqb text "mysql: {drivername: mysql, host: localhost}"
       then inl (PyDict {[ "mysql" :=
                   PyDict (<["drivername" := PyScalar "mysql"]>
                             {[ "host" := PyScalar "localhost" ]}) ]})
       else if String.eqb text "redis: {host: localhost}"
       then inl (PyDict {[ "redis" := PyDict {[ "host" := PyScalar "localhost" ]} ]})
       else inr "could not parse")
    (fun _ => Some (fun _ _ => Some [])).

(** * Properties *)

(** ** Geometry on the real numbers *)

Section RealGeometry.
Local Open Scope R_scope.

Lemma Rgeb_true x y : x >= y -> Rgeb x y = true.
Proof. intros; unfold Rgeb; destruct (Rge_dec x y); [reflexivity | lra]. Qed.

Lemma Rgeb_false x y : x < y -> Rgeb x y = false.
Proof. intros; unfold Rgeb; destruct (Rge_dec x y); [lra | reflexivity]. Qed.

Lemma Rleb_true x y : x <= y -> Rleb x y = true.
Proof. intros; unfold Rleb; destruct (Rle_dec x y); [reflexivity | lra]. Qed.

Lemma Rleb_false x y : x > y -> Rleb x y = false.
Proof. intros; unfold Rleb; destruct (Rle_dec x y); [lra | reflexivity]. Qed.

Lemma Rltb_true x y : x < y -> Rltb x y = true.
Proof. intros; unfold Rltb; destruct (Rlt_dec x y); [reflexivity | lra]. Qed.

Lemma Rltb_false x y : x >= y -> Rltb x y = false.
Proof. intros; unfold Rltb; destruct (Rlt_dec x y); [lra | reflexivity]. Qed.

Lemma Rgtb_true x y : x > y -> Rgtb x y = true.
Proof. intros; unfold Rgtb; destruct (Rgt_dec x y); [reflexivity | lra]. Qed.

Lemma Rgtb_false x y : x <= y -> Rgtb x y = false.
Proof. intros; unfold Rgtb; destruct (Rgt_dec x y); [lra | reflexivity]. Qed.

Lemma Q2R_integer (z : Z) : Q2R (inject_Z z) = IZR z.
Proof. unfold Q2R; cbn. rewrite Rinv_1. ring. Qed.

(** [query_bounds] on [R], with the literals read as real numbers. *)
Lemma query_bounds_R (ra dec r : R) :
  query_bounds ra dec r =
  if Rgeb (dec + r) (PI / 2) then [mkBox 0 (2 * PI) (dec - r) (PI / 2)]
  else if Rleb (dec - r) (- PI / 2) then [mkBox 0 (2 * PI) (PI / 2) (dec + r)]
  else
    let ra_off := asin (sin r / cos dec) in
    if Rltb (ra - ra_off) 0 then
      [mkBox (2 * PI - (ra - ra_off)) 0 (dec - r) (dec + r);
       mkBox 0 (ra + ra_off) (dec - r) (dec + r)]
    else if Rgtb (ra + ra_off) (2 * PI) then
      [mkBox (ra - ra_off) (2 * PI) (dec - r) (dec + r);
       mkBox 0 (ra + ra_off - 2 * PI) (dec - r) (dec + r)]
    else [mkBox (ra - ra_off) (ra + ra_off) (dec - r) (dec + r)].
Proof.
  unfold query_bounds; cbn.
  change (Q2R 0) with (Q2R (inject_Z 0)); change (Q2R 2) with (Q2R (inject_Z 2)).
  rewrite !Q2R_integer. reflexivity.
Qed.

Lemma box_ext (a b c d a' b' c' d' : R) :
  a = a' -> b = b' -> c = c' -> d = d' -> mkBox a b c d = mkBox a' b' c' d'.
Proof. intros; subst; reflexivity. Qed.

(** What the first inner branch of the source returns: the branch taken
    when the box starts below RA 0. *)
Lemma query_bounds_below_zero (ra dec r : R) :
  dec + r < PI / 2 -> dec - r > - PI / 2 ->
  ra - asin (sin r / cos dec) < 0 ->
  query_bounds ra dec r =
    [mkBox (2 * PI - (ra - asin (sin r / cos dec))) 0 (dec - r) (dec + r);
     mkBox 0 (ra + asin (sin r / cos dec)) (dec - r) (dec + r)].
Proof.
  intros Hn Hs Hlow. rewrite query_bounds_R.
  rewrite Rgeb_false, Rleb_false by lra. cbv zeta.
  rewrite Rltb_true by lra. reflexivity.
Qed.

(** The sibling branch, taken when the box ends above RA 2 pi: the part
    below 2 pi and the part wrapped to 0. *)
Lemma query_bounds_above_two_pi (ra dec r : R) :
  dec + r < PI / 2 -> dec - r > - PI / 2 ->
  ra - asin (sin r / cos dec) >= 0 ->
  ra + asin (sin r / cos dec) > 2 * PI ->
  query_bounds ra dec r =
    [mkBox (ra - asin (sin r / cos dec)) (2 * PI) (dec - r) (dec + r);
     mkBox 0 (ra + asin (sin r / cos dec) - 2 * PI) (dec - r) (dec + r)].
Proof.
  intros Hn Hs Hlow Hhigh. rewrite query_bounds_R.
  rewrite Rgeb_false, Rleb_false by lra. cbv zeta.
  rewrite Rltb_false, Rgtb_true by lra. reflexivity.
Qed.

(** The north-pole branch. *)
Lemma query_bounds_north (ra dec r : R) :
  dec + r >= PI / 2 ->
  query_bounds ra dec r = [mkBox 0 (2 * PI) (dec - r) (PI / 2)].
Proof.
  intros Hn. rewrite query_bounds_R. rewrite Rgeb_true by lra. reflexivity.
Qed.

(** The south-pole branch. *)
Lemma query_bounds_south (ra dec r : R) :
  dec + r < PI / 2 -> dec - r <= - PI / 2 ->
  query_bounds ra dec r = [mkBox 0 (2 * PI) (PI / 2) (dec + r)].
Proof.
  intros Hn Hs. rewrite query_bounds_R.
  rewrite Rgeb_false, Rleb_true by lra. reflexivity.
Qed.

(** The offset in right ascension of a field of 5 degrees on the
    equator is 5 degrees. *)
Lemma ra_off_equator_5deg : asin (sin (5 * PI / 180) / cos 0) = 5 * PI / 180.
Proof.
  rewrite cos_0. replace (sin (5 * PI / 180) / 1) with (sin (5 * PI / 180)) by lra.
  apply asin_sin. pose proof PI_RGT_0. lra.
Qed.

Lemma query_bounds_1_0_5 :
  query_bounds (PI / 180) 0 (5 * PI / 180) =
    [mkBox (364 * PI / 180) 0 (- (5 * PI / 180)) (5 * PI / 180);
     mkBox 0 (6 * PI / 180) (- (5 * PI / 180)) (5 * PI / 180)].
Proof.
  pose proof PI_RGT_0 as Hpi.
  rewrite query_bounds_below_zero; rewrite ?ra_off_equator_5deg; try lra.
  f_equal; [| f_equal]; apply box_ext; lra.
Qed.

(** C1 (the code at the input of the specification's antimeridian
    example, RA 1 degree, Dec 0, radius 5 degrees): the input is in the
    antimeridian case, the first box returned runs from 364 degrees to
    0 and not from 2 pi + raMin = 356 degrees to 2 pi = 360 degrees. *)
Theorem antimeridian_boxes_at_1_0_5 :
  let ra := PI / 180 in
  let dec := 0 in
  let r := 5 * PI / 180 in
  let raMin := ra - asin (sin r / cos dec) in
  let raMax := ra + asin (sin r / cos dec) in
  (r < PI / 2 /\ dec + r < PI / 2 /\ dec - r > - (PI / 2) /\ raMin < 0) /\
  query_bounds ra dec r =
    [mkBox (364 * PI / 180) 0 (- (5 * PI / 180)) (5 * PI / 180);
     mkBox 0 (6 * PI / 180) (- (5 * PI / 180)) (5 * PI / 180)] /\
  query_bounds ra dec r <>
    [mkBox (2 * PI + raMin) (2 * PI) (dec - r) (dec + r);
     mkBox 0 raMax (dec - r) (dec + r)].
Proof.
  pose proof PI_RGT_0 as Hpi. cbv zeta.
  rewrite ra_off_equator_5deg, query_bounds_1_0_5.
  repeat split; try lra.
  intros Heq. injection Heq as _ Hmax _. lra.
Qed.

Lemma separation_1_358 :
  separation (PI / 180) 0 (358 * PI / 180) 0 = 3 * PI / 180.
Proof.
  pose proof PI_RGT_0 as Hpi. unfold separation.
  rewrite sin_0, cos_0.
  replace (PI / 180 - 358 * PI / 180) with (- (2 * PI - 3 * PI / 180)) by lra.
  rewrite cos_neg, cos_minus, cos_2PI, sin_2PI.
  replace (0 * 0 + 1 * 1 * (1 * cos (3 * PI / 180) + 0 * sin (3 * PI / 180)))
    with (cos (3 * PI / 180)) by lra.
  apply acos_cos. lra.
Qed.

(** C2 (a field of view that the boxes do not cover): for the pointing
    RA 1 degree, Dec 0 and radius 5 degrees, the point RA 358 degrees,
    Dec 0 is 3 degrees from the pointing and lies in none of the boxes
    returned, bounds included. *)
Theorem point_in_field_outside_boxes :
  let ra := PI / 180 in
  let dec := 0 in
  let r := 5 * PI / 180 in
  let p_ra := 358 * PI / 180 in
  let p_dec := 0 in
  (0 < r < PI / 2 /\ 0 <= ra < 2 * PI /\ 0 <= p_ra < 2 * PI) /\
  separation ra dec p_ra p_dec < r /\
  Forall (fun b => ~ inside_closed b p_ra p_dec) (query_bounds ra dec r).
Proof.
  pose proof PI_RGT_0 as Hpi. cbv zeta.
  rewrite separation_1_358, query_bounds_1_0_5.
  repeat split; try lra.
  repeat constructor; unfold inside_closed; cbn; lra.
Qed.

(** The same defect at the south pole: the pointing itself is outside
    the only box returned. *)
Lemma south_pole_centre_outside_box :
  separation PI (-1) PI (-1) < 1 /\
  Forall (fun b => ~ inside_closed b PI (-1)) (query_bounds PI (-1) 1).
Proof.
  pose proof PI_RGT_0 as Hpi. pose proof PI_4 as H4. split.
  - unfold separation.
    replace (PI - PI) with 0 by lra. rewrite cos_0.
    replace (sin (-1) * sin (-1) + cos (-1) * cos (-1) * 1)
      with ((sin (-1))² + (cos (-1))²) by (unfold Rsqr; lra).
    rewrite sin2_cos2, acos_1. lra.
  - rewrite query_bounds_south by lra.
    repeat constructor; unfold inside_closed; cbn; lra.
Qed.

(** C5, as stated, fails at Dec -1, radius 1 (any RA, here 0): the
    input is in the south-pole case and the box returned does not have
    decMin = dec + r and decMax = pi/2. *)
Lemma south_pole_box_not_as_stated :
  (0 < 1 < PI / 2 /\ -1 - 1 <= - (PI / 2) /\ -1 + 1 < PI / 2) /\
  query_bounds 0 (-1) 1 <> [mkBox 0 (2 * PI) (-1 + 1) (PI / 2)].
Proof.
  pose proof PI_RGT_0 as Hpi. pose proof PI_4 as H4. pose proof PI2_1 as H1.
  split; [lra |].
  rewrite query_bounds_south by lra.
  intros Heq. injection Heq as Hmin _. lra.
Qed.

(** C5 (amended): in the south-pole case [query_bounds] returns exactly
    one box, over the full range of right ascension, whose upper bound
    in declination is dec + r. *)
Theorem query_bounds_south_pole (ra dec r : R) :
  0 < r < PI / 2 -> dec - r <= - (PI / 2) -> dec + r < PI / 2 ->
  exists b, query_bounds ra dec r = [b] /\
            ra_min b = 0 /\ ra_max b = 2 * PI /\ dec_max b = dec + r.
Proof.
  intros Hr Hs Hn. rewrite query_bounds_south by lra.
  eexists; split; [reflexivity |]. cbn. auto.
Qed.

Lemma query_bounds_south_pole_witness :
  exists b, query_bounds 0 (-1) 1 = [b] /\
            ra_min b = 0 /\ ra_max b = 2 * PI /\ dec_max b = -1 + 1.
Proof.
  apply (query_bounds_south_pole 0 (-1) 1);
    pose proof PI_RGT_0; pose proof PI_4; pose proof PI2_1; lra.
Defined.

(** C6: away from the poles, when the box [ra - raOffset, ra + raOffset]
    stays within [0, 2 pi], [query_bounds] returns exactly that one
    box. *)
Theorem query_bounds_single_box (ra dec r : R) :
  r < PI / 2 -> dec + r < PI / 2 -> dec - r > - (PI / 2) ->
  ra - asin (sin r / cos dec) >= 0 ->
  ra + asin (sin r / cos dec) <= 2 * PI ->
  query_bounds ra dec r =
    [mkBox (ra - asin (sin r / cos dec)) (ra + asin (sin r / cos dec))
           (dec - r) (dec + r)].
Proof.
  intros _ Hn Hs Hlow Hhigh. rewrite query_bounds_R.
  rewrite Rgeb_false, Rleb_false by lra. cbv zeta.
  rewrite Rltb_false, Rgtb_false by lra. reflexivity.
Qed.

Lemma query_bounds_single_box_witness :
  query_bounds PI 0 (PI / 4) =
    [mkBox (PI - asin (sin (PI / 4) / cos 0)) (PI + asin (sin (PI / 4) / cos 0))
           (0 - PI / 4) (0 + PI / 4)].
Proof.
  pose proof PI_RGT_0 as Hpi.
  pose proof (asin_bound (sin (PI / 4) / cos 0)) as Hb.
  apply (query_bounds_single_box PI 0 (PI / 4)); lra.
Defined.

End RealGeometry.

(** ** The number of boxes *)

Section Boxes.
Context {F : Type} `{Floating F}.

Lemma query_bounds_shape (ra dec r : F) :
  (exists b, query_bounds ra dec r = [b]) \/
  (exists b0 b1, query_bounds ra dec r = [b0; b1] /\
                 dec_min b0 = dec_min b1 /\ dec_max b0 = dec_max b1).
Proof.
  unfold query_bounds.
  repeat match goal with
         | |- context [if ?c then _ else _] => destruct c
         end; cbv zeta; eauto 6.
Qed.

Lemma calculate_targets_executed (self : TargetsMinimal F)
    (subarray target_name : string) (ra_deg dec_deg fecenter : F)
    (obsid : string) (w : World F) :
  let w' := snd (calculate_targets self subarray target_name ra_deg dec_deg fecenter obsid w) in
  executed w' = executed w \/
  exists r, beam_radius fecenter = Some r /\
    executed w' = executed w ++
      [targets_query (query_bounds (deg2rad ra_deg) (deg2rad dec_deg) r) ra_deg dec_deg r].
Proof.
  unfold calculate_targets, bind, write_log, division, read_sql, redis_set,
    redis_publish, ret, raise; cbn.
  destruct (beam_radius fecenter) as [r |]; cbn; [| auto].
  right. exists r. split; [reflexivity |].
  destruct (engine self _ _); reflexivity.
Qed.

(** C10: [query_bounds] returns one box or two, never none; the query
    built from its result never takes the branch without a WHERE
    clause, and a query that [calculate_targets] sends to the
    catalogue is never that one. *)
Theorem query_bounds_one_or_two_boxes (ra dec r : F) :
  (length (query_bounds ra dec r) = 1 \/ length (query_bounds ra dec r) = 2) /\
  box_query (query_bounds ra dec r) <> WholeTable /\
  (forall (self : TargetsMinimal F) (subarray target_name obsid : string)
          (ra_deg dec_deg fecenter : F) (w : World F),
     let w' := snd (calculate_targets self subarray target_name ra_deg dec_deg
                      fecenter obsid w) in
     executed w' = executed w \/
     exists q, executed w' = executed w ++ [q] /\ from_query q <> WholeTable).
Proof.
  assert (Hq : forall a d x, box_query (query_bounds a d x) <> WholeTable).
  { intros a d x.
    destruct (query_bounds_shape a d x) as [[b Hb] | (b0 & b1 & Hb & _)];
      rewrite Hb; discriminate. }
  split; [| split].
  - destruct (query_bounds_shape ra dec r) as [[b Hb] | (b0 & b1 & Hb & _)];
      rewrite Hb; auto.
  - apply Hq.
  - intros self subarray target_name obsid ra_deg dec_deg fecenter w.
    destruct (calculate_targets_executed self subarray target_name ra_deg dec_deg
                fecenter obsid w)
      as [Hsame | (x & _ & Hone)]; cbv zeta; [left; exact Hsame | right].
    eexists; split; [exact Hone | apply Hq].
Qed.

End Boxes.

(** ** The two-stage query *)

Section TwoStage.
Context {F : Type} `{Floating F}.

Lemma filter_forallb {A} (f : A -> bool) (l : list A) :
  forallb f (List.filter f l) = true.
Proof.
  induction l as [| x l IH]; cbn; [reflexivity |].
  destruct (f x) eqn:E; cbn; [rewrite E |]; exact IH.
Qed.

(** The WHERE clause of the inner SELECT is the test "in one of the
    boxes" whenever the boxes are one, or two with the same range of
    declination. *)
Lemma box_where_one (b : Box F) (row : Row F) :
  box_where (box_query [b]) row = in_some_box [b] row.
Proof.
  unfold in_some_box, in_box, box_query, box_where, rad2deg_box.
  cbn [existsb ra_min ra_max dec_min dec_max]. rewrite orb_false_r. reflexivity.
Qed.

Lemma box_where_two (b0 b1 : Box F) (row : Row F) :
  dec_min b0 = dec_min b1 -> dec_max b0 = dec_max b1 ->
  box_where (box_query [b0; b1]) row = in_some_box [b0; b1] row.
Proof.
  intros Hmin Hmax. unfold in_some_box, in_box, box_query, box_where, rad2deg_box.
  cbn [existsb ra_min ra_max dec_min dec_max]. rewrite <- Hmin, <- Hmax, orb_false_r.
  destruct (between _ _ (ra row)), (between _ _ (ra row)),
    (between _ _ (decl row)); reflexivity.
Qed.

Lemma box_where_query_bounds (ra_rad dec_rad r : F) (row : Row F) :
  box_where (box_query (query_bounds ra_rad dec_rad r)) row =
  in_some_box (query_bounds ra_rad dec_rad r) row.
Proof.
  destruct (query_bounds_shape ra_rad dec_rad r)
    as [[b Hb] | (b0 & b1 & Hb & Hmin & Hmax)]; rewrite Hb.
  - apply box_where_one.
  - apply box_where_two; assumption.
Qed.

Lemma run_whole_table (target_list : list (Row F)) :
  List.filter (box_where WholeTable) target_list = target_list.
Proof.
  induction target_list as [| x l IH]; cbn; [reflexivity | f_equal; exact IH].
Qed.

Lemma separation_where_within (bounds : list (Box F)) (ra_deg dec_deg r : F)
    (row : Row F) :
  separation_where (targets_query bounds ra_deg dec_deg r) row =
  within_radius ra_deg dec_deg r row.
Proof. reflexivity. Qed.

(** The evaluation of the text is the relational reading of the
    templates. *)
Lemma eval_box_text (q : BoxQuery F) (target_list : list (Row F)) :
  eval_select (sql_of_box_query q) target_list = run_box_query q target_list.
Proof.
  unfold run_box_query. destruct q as [a0 a1 b0 b1 d0 d1 | a0 a1 d0 d1 |]; cbn.
  - reflexivity.
  - reflexivity.
  - symmetry. apply run_whole_table.
Qed.

Lemma eval_targets_text (q : TargetsQuery F) (target_list : list (Row F)) :
  eval_select (sql_of_targets_query q) target_list = run_targets_query q target_list.
Proof.
  unfold run_targets_query, derived_table, sql_of_targets_query.
  cbn [eval_select eval_where]. rewrite eval_box_text. reflexivity.
Qed.

(** The inner SELECT computes no ACOS. *)
Lemma box_text_acos_rows (q : BoxQuery F) (target_list : list (Row F)) :
  acos_rows (sql_of_box_query q) target_list = [].
Proof. destruct q; reflexivity. Qed.

(** The WHERE clause of the inner text, for one box and for two boxes
    with one range of declination, is stage 1. *)
Lemma box_text_one (b : Box F) (row : Row F) :
  box_where (box_query [b]) row = passes_stage1 [b] row.
Proof.
  unfold passes_stage1, degrees, box_query, box_where, between, rad2deg_box, rad2deg.
  cbn [existsb ra_min ra_max dec_min dec_max].
  rewrite orb_false_r, !andb_assoc. reflexivity.
Qed.

Lemma box_text_two (b0 b1 : Box F) (row : Row F) :
  dec_min b0 = dec_min b1 -> dec_max b0 = dec_max b1 ->
  box_where (box_query [b0; b1]) row = passes_stage1 [b0; b1] row.
Proof.
  intros Hmin Hmax.
  unfold passes_stage1, degrees, box_query, box_where, between, rad2deg_box, rad2deg.
  cbn [existsb ra_min ra_max dec_min dec_max]. rewrite <- Hmin, <- Hmax, orb_false_r.
  destruct (ra row >? _)%fl, (ra row <? _)%fl, (ra row >? _)%fl, (ra row <? _)%fl,
    (decl row >? _)%fl, (decl row <? _)%fl; reflexivity.
Qed.

Lemma box_text_query_bounds (ra_rad dec_rad r : F) (row : Row F) :
  box_where (box_query (query_bounds ra_rad dec_rad r)) row =
  passes_stage1 (query_bounds ra_rad dec_rad r) row.
Proof.
  destruct (query_bounds_shape ra_rad dec_rad r)
    as [[b Hb] | (b0 & b1 & Hb & Hmin & Hmax)]; rewrite Hb.
  - apply box_text_one.
  - apply box_text_two; assumption.
Qed.

(** C9: for every pointing, while the SQL text built by
    [calculate_targets] is evaluated, ACOS is computed exactly on the
    catalogue rows that pass stage 1 (strictly inside one of the boxes of
    [query_bounds], in degrees), and the result is the rows among these
    whose angular separation is below the beam radius; with an empty
    list of boxes ACOS is computed on every row of the catalogue and the
    result is the rows of the catalogue within the beam radius. *)
Theorem targets_query_two_stage (ra_deg dec_deg r : F) (target_list : list (Row F)) :
  let bounds := query_bounds (deg2rad ra_deg) (deg2rad dec_deg) r in
  let text := sql_of_targets_query (targets_query bounds ra_deg dec_deg r) in
  let text0 := sql_of_targets_query (targets_query [] ra_deg dec_deg r) in
  acos_rows text target_list = List.filter (passes_stage1 bounds) target_list /\
  eval_select text target_list =
    List.filter (within_radius ra_deg dec_deg r)
                (List.filter (passes_stage1 bounds) target_list) /\
  acos_rows text0 target_list = target_list /\
  eval_select text0 target_list =
    List.filter (within_radius ra_deg dec_deg r) target_list.
Proof.
  cbv zeta.
  assert (Hinner : forall bounds,
            eval_select (sql_of_box_query (box_query bounds)) target_list =
            List.filter (box_where (box_query bounds)) target_list)
    by (intros bounds; apply eval_box_text).
  assert (Hstage1 :
            List.filter (box_where (box_query
                           (query_bounds (deg2rad ra_deg) (deg2rad dec_deg) r)))
                        target_list =
            List.filter (passes_stage1
                           (query_bounds (deg2rad ra_deg) (deg2rad dec_deg) r))
                        target_list)
    by (apply filter_ext; intros row; apply box_text_query_bounds).
  split; [| split; [| split]].
  - unfold sql_of_targets_query. cbn [acos_rows from_query targets_query].
    rewrite box_text_acos_rows. cbn. rewrite Hinner. exact Hstage1.
  - unfold sql_of_targets_query. cbn [eval_select eval_where from_query targets_query].
    rewrite Hinner, Hstage1. apply filter_ext. intros row. reflexivity.
  - reflexivity.
  - unfold sql_of_targets_query.
    cbn [eval_select eval_where from_query targets_query box_query sql_of_box_query].
    apply filter_ext. intros row. reflexivity.
Qed.

End TwoStage.

(** ** The formatter *)

Section Formatter.
Context {F : Type} `{Floating F}.

Lemma format_loop_from (pre suf : list (ArrayRow F)) (acc : list (dict F)) :
  fold_left (format_step (pre ++ suf)) (seq (length pre) (length suf)) acc =
  acc ++ map source_dict suf.
Proof.
  revert pre acc. induction suf as [| row suf IH]; intros pre acc; cbn [length seq fold_left map].
  - rewrite app_nil_r. reflexivity.
  - unfold format_step at 2. rewrite list_lookup_middle by reflexivity.
    replace (pre ++ row :: suf) with ((pre ++ [row]) ++ suf)
      by (rewrite <- app_assoc; reflexivity).
    replace (S (length pre)) with (length (pre ++ [row]))
      by (rewrite length_app; cbn; lia).
    rewrite IH, <- app_assoc. reflexivity.
Qed.

Lemma output_list_map (df : list (ArrayRow F)) (pointing_dict : dict F) :
  output_list df pointing_dict = pointing_dict :: map source_dict df.
Proof. unfold output_list. apply (format_loop_from [] df [pointing_dict]). Qed.

(** The payload in terms of the array. *)
Lemma format_targets_array (df : list (Row F)) (pointing_dict : dict F) :
  format_targets df pointing_dict =
    JArray (JObject pointing_dict ::
            map (fun a => JObject (source_dict a)) (to_numpy df)).
Proof.
  unfold format_targets, json_dumps. cbv zeta.
  rewrite output_list_map. cbn [map]. rewrite map_map. reflexivity.
Qed.


(** An array of dtype float64 holds the ids as floats. *)
Lemma float_array_entries (df : list (Row F)) :
  forallb is_integer_id df = true ->
  map source_dict (to_numpy df) =
  map (fun row =>
         [("source_id",
           match source_id row with
           | IntId z => JNumber (lit (inject_Z z))
           | TextId s => JString s
           end);
          ("ra", JNumber (ra row)); ("dec", JNumber (decl row))]) df.
Proof.
  intros Hnum. unfold to_numpy. rewrite Hnum, map_map.
  apply map_ext. intros row. unfold source_dict; cbn.
  destruct (source_id row); reflexivity.
Qed.


End Formatter.

(** ** The listener *)

Section ListenerProperties.
Context {F : Type} `{Floating F}.

Ltac run_monad :=
  unfold calculate_targets, bind, write_log, float, division, read_sql,
    redis_set, redis_publish, ret, raise; cbn.

Lemma listen_loop_return (self : TargetsMinimal F) (msg : Message)
    (rest : list Message) (w w' : World F) :
  parse_msg self msg w = (Return tt, w') ->
  listen_loop self (msg :: rest) w = listen_loop self rest w'.
Proof. intros Hp. cbn [listen_loop]. rewrite Hp. reflexivity. Qed.

Lemma listen_loop_raise (self : TargetsMinimal F) (msg : Message)
    (rest : list Message) (w w' : World F) (e : exn) :
  parse_msg self msg w = (Raise e, w') ->
  listen_loop self (msg :: rest) w = Crashed e rest w'.
Proof. intros Hp. cbn [listen_loop]. rewrite Hp. reflexivity. Qed.

Lemma handled_not_raise (self : TargetsMinimal F) (msg : Message)
    (rest : list Message) (w w' : World F) (e : exn) :
  parse_msg self msg w = (Raise e, w') -> ~ handled self msg rest w.
Proof. intros Hp (w'' & Hr & _). rewrite Hp in Hr. discriminate Hr. Qed.

Lemma parse_msg_unrecognised (self : TargetsMinimal F) (msg : Message) (w : World F) :
  length (split colon (data msg)) <> 7 ->
  parse_msg self msg w =
    (Return tt, mkWorld (log w ++ [Warning_Unrecognised (data msg)])
                        (redis w) (published w) (executed w)).
Proof.
  intros Hlen. unfold parse_msg.
  destruct (split colon (data msg)) as [| c0 [| c1 [| c2 [| c3 [| c4 [| c5 [| c6 [| c7 l]]]]]]]];
    try reflexivity.
  exfalso. apply Hlen. reflexivity.
Qed.

(** C7: a message that does not split into exactly 7 fields only adds
    one warning line to the log; [parse_msg] returns normally, no query
    is executed, nothing is stored, nothing is published, and the loop
    goes on with the next message. *)
Theorem parse_msg_wrong_field_count (self : TargetsMinimal F) (msg : Message)
    (w : World F) :
  length (split colon (data msg)) <> 7 ->
  let w' := mkWorld (log w ++ [Warning_Unrecognised (data msg)])
                    (redis w) (published w) (executed w) in
  parse_msg self msg w = (Return tt, w') /\
  forall rest, listen_loop self (msg :: rest) w = listen_loop self rest w'.
Proof.
  intros Hlen w'. pose proof (parse_msg_unrecognised self msg w Hlen) as Hp.
  split; [exact Hp |]. intros rest. apply listen_loop_return. exact Hp.
Qed.

(** A seven-field message with a field that [float] rejects: the first
    such field, in the order RA, Dec, frequency, raises. *)
Lemma parse_msg_value_error (self : TargetsMinimal F) (msg : Message) (w : World F)
    (c0 c1 c2 c3 c4 c5 c6 : string) :
  split colon (data msg) = [c0; c1; c2; c3; c4; c5; c6] ->
  float_of_string c4 = None \/ float_of_string c5 = None \/ float_of_string c6 = None ->
  exists bad,
    first_rejected [c4; c5; c6] = Some bad /\
    In bad [c4; c5; c6] /\ float_of_string bad = None /\
    parse_msg self msg w =
      (Raise (ValueError bad),
       mkWorld (log w ++ [Info_Processing (data msg)])
               (redis w) (published w) (executed w)).
Proof.
  intros Hsplit Hbad. unfold parse_msg. rewrite Hsplit.
  unfold bind, write_log, float, ret, raise, first_rejected. cbn [List.find].
  destruct (float_of_string c4) as [x4 |] eqn:E4;
    [| exists c4; cbn; auto].
  destruct (float_of_string c5) as [x5 |] eqn:E5;
    [| exists c5; cbn; auto].
  destruct (float_of_string c6) as [x6 |] eqn:E6;
    [| exists c6; cbn; auto 6].
  exfalso. destruct Hbad as [Hb | [Hb | Hb]]; discriminate Hb.
Qed.

(** C3 (amended): for a seven-field message with a non-numeric RA, Dec
    or frequency field, [float] raises [ValueError] for the first such
    field; only the 'Processing message' line is logged, nothing is
    queried, stored or published, and the exception leaves [parse_msg]
    and the receive loop: the listener stops and the following messages
    stay unread. *)
Theorem parse_msg_non_numeric_field (self : TargetsMinimal F) (msg : Message)
    (w : World F) (c0 c1 c2 c3 c4 c5 c6 : string) :
  split colon (data msg) = [c0; c1; c2; c3; c4; c5; c6] ->
  float_of_string c4 = None \/ float_of_string c5 = None \/ float_of_string c6 = None ->
  let w' := mkWorld (log w ++ [Info_Processing (data msg)])
                    (redis w) (published w) (executed w) in
  exists bad,
    first_rejected [c4; c5; c6] = Some bad /\
    In bad [c4; c5; c6] /\ float_of_string bad = None /\
    parse_msg self msg w = (Raise (ValueError bad), w') /\
    forall rest, listen_loop self (msg :: rest) w = Crashed (ValueError bad) rest w'.
Proof.
  intros Hsplit Hbad w'.
  destruct (parse_msg_value_error self msg w _ _ _ _ _ _ _ Hsplit Hbad)
    as (bad & Hfirst & Hin & Hnone & Hp).
  exists bad. repeat split; try assumption.
  intros rest. apply listen_loop_raise. exact Hp.
Qed.

(** A well-formed message whose catalogue query fails. *)
Lemma parse_msg_catalogue_error (self : TargetsMinimal F) (msg : Message) (w : World F)
    (c0 c1 c2 c3 c4 c5 c6 : string) (ra_deg dec_deg fecenter r : F) :
  split colon (data msg) = [c0; c1; c2; c3; c4; c5; c6] ->
  float_of_string c4 = Some ra_deg ->
  float_of_string c5 = Some dec_deg ->
  float_of_string c6 = Some fecenter ->
  beam_radius fecenter = Some r ->
  let q := targets_query (query_bounds (deg2rad ra_deg) (deg2rad dec_deg) r)
                         ra_deg dec_deg r in
  engine self (length (executed w)) q = None ->
  parse_msg self msg w =
    (Raise CatalogueError,
     mkWorld (log w ++ [Info_Processing (data msg)]
                    ++ [Info_Calculating c3 ra_deg dec_deg]
                    ++ [Info_ApplyingBoundingBox])
             (redis w) (published w) (executed w ++ [q])).
Proof.
  intros Hsplit H4 H5 H6 Hr q Hq. unfold parse_msg. rewrite Hsplit.
  run_monad. rewrite H4; cbn. rewrite H5; cbn. rewrite H6; cbn.
  rewrite Hr; cbn. fold q. rewrite Hq.
  rewrite <- !app_assoc. reflexivity.
Qed.

(** C4 (amended): when the catalogue query of a pointing event fails,
    nothing is stored and nothing is published for the event; the
    failure itself is not logged, the exception leaves
    [calculate_targets], [parse_msg] and the receive loop, and the
    listener stops with the following messages unread. *)
Theorem catalogue_failure_stops_listener (self : TargetsMinimal F) (msg : Message)
    (w : World F) (c0 c1 c2 c3 c4 c5 c6 : string) (ra_deg dec_deg fecenter r : F) :
  split colon (data msg) = [c0; c1; c2; c3; c4; c5; c6] ->
  float_of_string c4 = Some ra_deg ->
  float_of_string c5 = Some dec_deg ->
  float_of_string c6 = Some fecenter ->
  beam_radius fecenter = Some r ->
  let q := targets_query (query_bounds (deg2rad ra_deg) (deg2rad dec_deg) r)
                         ra_deg dec_deg r in
  engine self (length (executed w)) q = None ->
  let w' := mkWorld (log w ++ [Info_Processing (data msg)]
                           ++ [Info_Calculating c3 ra_deg dec_deg]
                           ++ [Info_ApplyingBoundingBox])
                    (redis w) (published w) (executed w ++ [q]) in
  parse_msg self msg w = (Raise CatalogueError, w') /\
  redis w' = redis w /\ published w' = published w /\
  forall rest, listen_loop self (msg :: rest) w = Crashed CatalogueError rest w'.
Proof.
  intros Hsplit H4 H5 H6 Hr q Hq w'.
  pose proof (parse_msg_catalogue_error self msg w _ _ _ _ _ _ _ _ _ _ _
                Hsplit H4 H5 H6 Hr Hq) as Hp.
  split; [exact Hp |]. split; [reflexivity |]. split; [reflexivity |].
  intros rest. apply listen_loop_raise. exact Hp.
Qed.

(** The path without failure, for reference: the payload is stored
    under [targets:<obsid>] and the key is published. *)
Lemma parse_msg_success (self : TargetsMinimal F) (msg : Message) (w : World F)
    (c0 c1 c2 c3 c4 c5 c6 : string) (ra_deg dec_deg fecenter r : F) (df : list (Row F)) :
  split colon (data msg) = [c0; c1; c2; c3; c4; c5; c6] ->
  float_of_string c4 = Some ra_deg ->
  float_of_string c5 = Some dec_deg ->
  float_of_string c6 = Some fecenter ->
  beam_radius fecenter = Some r ->
  let q := targets_query (query_bounds (deg2rad ra_deg) (deg2rad dec_deg) r)
                         ra_deg dec_deg r in
  engine self (length (executed w)) q = Some df ->
  let key := targets_key (c0 +:+ ":" +:+ c1 +:+ ":" +:+ c2) in
  parse_msg self msg w =
    (Return tt,
     mkWorld (log w ++ [Info_Processing (data msg)]
                    ++ [Info_Calculating c3 ra_deg dec_deg]
                    ++ [Info_ApplyingBoundingBox]
                    ++ [Info_Retrieved (length df)])
             (<[key := format_targets df
                         [("source_id", JString c3); ("ra", JNumber ra_deg);
                          ("dec", JNumber dec_deg)]]> (redis w))
             (published w ++ [(targets_channel self, key)])
             (executed w ++ [q])).
Proof.
  intros Hsplit H4 H5 H6 Hr q Hq key. unfold parse_msg. rewrite Hsplit.
  run_monad. rewrite H4; cbn. rewrite H5; cbn. rewrite H6; cbn.
  rewrite Hr; cbn. fold q. rewrite Hq. cbn.
  rewrite <- !app_assoc. reflexivity.
Qed.

End ListenerProperties.

(** ** Runs of the listener on the real numbers *)

Section Runs.
Local Open Scope R_scope.

Lemma Rzerob_false (x : R) : x <> 0 -> Rzerob x = false.
Proof. intros Hx. unfold Rzerob. destruct (Req_dec_T x 0); [contradiction | reflexivity]. Qed.

Lemma beam_radius_R (fecenter : R) :
  fecenter <> 0 ->
  beam_radius fecenter =
    Some (Q2R (1 # 2) * (Q2R 299792458 / (fecenter * Q2R 1000000)) / Q2R 25).
Proof.
  intros Hx. unfold beam_radius; cbn.
  rewrite Rzerob_false; [reflexivity |].
  change (Q2R 1000000) with (Q2R (inject_Z 1000000)). rewrite Q2R_integer.
  intros Hz. apply Hx. lra.
Qed.

Lemma frequency_1420_nonzero : Q2R 1420.0 <> 0.
Proof. unfold Q2R; cbn. lra. Qed.

(** The example message, whenever it is the first to reach the
    catalogue of [flaky_selector]. *)
Lemma example_message_fails (w : World R) :
  executed w = [] ->
  parse_msg flaky_selector example_message w =
    (Raise CatalogueError,
     mkWorld (log w ++ [Info_Processing (data example_message)]
                    ++ [Info_Calculating "3C286" (Q2R 202.78) (Q2R 30.51)]
                    ++ [Info_ApplyingBoundingBox])
             (redis w) (published w) (executed w ++ [example_query])).
Proof.
  intros Hex.
  apply (parse_msg_catalogue_error flaky_selector example_message w
           "MeerKAT" "array1" "169000000" "3C286" "202.78" "30.51" "1420.0"
           (Q2R 202.78) (Q2R 30.51) (Q2R 1420.0) example_radius);
    try reflexivity.
  - apply beam_radius_R, frequency_1420_nonzero.
  - rewrite Hex. reflexivity.
Qed.

Lemma parse_msg_wrong_field_count_witness :
  length (split colon (data six_field_message)) <> 7%nat /\
  parse_msg flaky_selector six_field_message empty_world =
    (Return tt,
     mkWorld [Warning_Unrecognised (data six_field_message)] ∅ [] []) /\
  length (split colon (data eight_field_message)) <> 7%nat /\
  parse_msg flaky_selector eight_field_message empty_world =
    (Return tt,
     mkWorld [Warning_Unrecognised (data eight_field_message)] ∅ [] []).
Proof.
  assert (H6 : length (split colon (data six_field_message)) <> 7%nat)
    by (vm_compute; lia).
  assert (H8 : length (split colon (data eight_field_message)) <> 7%nat)
    by (vm_compute; lia).
  split; [exact H6 | split; [| split; [exact H8 |]]].
  - exact (proj1 (parse_msg_wrong_field_count flaky_selector six_field_message
                    empty_world H6)).
  - exact (proj1 (parse_msg_wrong_field_count flaky_selector eight_field_message
                    empty_world H8)).
Defined.

(** [float] on the reals: surrounding whitespace, signs, digit
    underscores, a bare point on either side and exponents are read;
    text that is no float syntax is rejected, and so are the words for
    the doubles that are no real numbers. *)
Lemma decimal_float_syntax :
  option_map Qred (decimal " 202.78 ") = Some (10139 # 50) /\
  option_map Qred (decimal "-63.71") = Some (- 6371 # 100) /\
  option_map Qred (decimal "1.42e3") = Some (1420 # 1) /\
  option_map Qred (decimal "1_420") = Some (1420 # 1) /\
  option_map Qred (decimal "25E-1") = Some (5 # 2) /\
  option_map Qred (decimal "+.5") = Some (1 # 2) /\
  option_map Qred (decimal "5.") = Some (5 # 1) /\
  decimal "abc" = None /\ decimal EmptyString = None /\ decimal "." = None /\
  decimal "1__0" = None /\ decimal "_1" = None /\ decimal "1e" = None /\
  decimal "1 2" = None /\ decimal "- 1" = None /\
  decimal "inf" = None /\ decimal "nan" = None.
Proof. repeat split; reflexivity. Qed.



(** C3, as stated, fails on a message whose RA field is "abc": the
    message has seven fields, [float] rejects "abc", the message is not
    handled, and the listener started on this message followed by a
    well-formed one stops with the second message unread. *)
Lemma non_numeric_message_stops_listener :
  split colon (data non_numeric_message) =
    ["MeerKAT"; "array1"; "169000000"; "3C286"; "abc"; "30.51"; "1420.0"] /\
  float_of_string "abc" = (None : option R) /\
  ~ handled flaky_selector non_numeric_message [example_message] empty_world /\
  start flaky_selector [non_numeric_message; example_message] empty_world =
    Crashed (ValueError "abc") [example_message]
      (mkWorld [Info_Starting; Info_Listening "pointings";
                Info_Processing (data non_numeric_message)] ∅ [] []).
Proof.
  split; [reflexivity |]. split; [reflexivity |]. split.
  - apply (handled_not_raise _ _ _ _
             (mkWorld [Info_Processing (data non_numeric_message)] ∅ [] [])
             (ValueError "abc")).
    reflexivity.
  - reflexivity.
Qed.

Lemma parse_msg_non_numeric_field_witness :
  first_rejected ["abc"; "30.51"; "xyz"] = Some "abc" /\
  float_of_string "xyz" = (None : option R) /\
  parse_msg flaky_selector two_non_numeric_message empty_world =
    (Raise (ValueError "abc"),
     mkWorld [Info_Processing (data two_non_numeric_message)] ∅ [] []) /\
  forall rest,
    listen_loop flaky_selector (two_non_numeric_message :: rest) empty_world =
    Crashed (ValueError "abc") rest
      (mkWorld [Info_Processing (data two_non_numeric_message)] ∅ [] []).
Proof.
  destruct (parse_msg_non_numeric_field flaky_selector two_non_numeric_message empty_world
              "MeerKAT" "array1" "169000000" "3C286" "abc" "30.51" "xyz")
    as (bad & Hfirst & _ & _ & Hp & Hl);
    [reflexivity | left; reflexivity |].
  assert (Habc : first_rejected ["abc"; "30.51"; "xyz"] = Some "abc") by reflexivity.
  rewrite Habc in Hfirst. injection Hfirst as <-.
  split; [exact Habc |]. split; [reflexivity |]. split; [exact Hp | exact Hl].
Defined.

(** C4, as stated, fails on the example message when the catalogue is
    down for its query: the query fails, the message is not handled,
    and the listener started on two such messages stops after the first
    although the catalogue would have answered the second. *)
Lemma example_message_not_handled_when_catalogue_down :
  engine flaky_selector 0 example_query = None /\
  engine flaky_selector 1 example_query = Some [] /\
  ~ handled flaky_selector example_message [example_message] empty_world /\
  start flaky_selector [example_message; example_message] empty_world =
    Crashed CatalogueError [example_message]
      (mkWorld [Info_Starting; Info_Listening "pointings";
                Info_Processing (data example_message);
                Info_Calculating "3C286" (Q2R 202.78) (Q2R 30.51);
                Info_ApplyingBoundingBox] ∅ [] [example_query]).
Proof.
  split; [reflexivity |]. split; [reflexivity |]. split.
  - eapply handled_not_raise. apply example_message_fails. reflexivity.
  - unfold start, bind, write_log; cbn [log redis published executed empty_world].
    erewrite listen_loop_raise; [| apply example_message_fails; reflexivity].
    reflexivity.
Qed.

Lemma catalogue_failure_stops_listener_witness :
  parse_msg flaky_selector example_message empty_world =
    (Raise CatalogueError,
     mkWorld [Info_Processing (data example_message);
              Info_Calculating "3C286" (Q2R 202.78) (Q2R 30.51);
              Info_ApplyingBoundingBox] ∅ [] [example_query]) /\
  forall rest,
    listen_loop flaky_selector (example_message :: rest) empty_world =
    Crashed CatalogueError rest
      (mkWorld [Info_Processing (data example_message);
                Info_Calculating "3C286" (Q2R 202.78) (Q2R 30.51);
                Info_ApplyingBoundingBox] ∅ [] [example_query]).
Proof.
  destruct (catalogue_failure_stops_listener flaky_selector example_message empty_world
              "MeerKAT" "array1" "169000000" "3C286" "202.78" "30.51" "1420.0"
              (Q2R 202.78) (Q2R 30.51) (Q2R 1420.0) example_radius)
    as (Hp & _ & _ & Hl);
    try reflexivity.
  - apply beam_radius_R, frequency_1420_nonzero.
  - split; [exact Hp | exact Hl].
Defined.

End Runs.

(** ** The pre-filter and the exact test, for every number type *)

Section TwoStageParts.
Context {F : Type} `{Floating F}.

Lemma two_stage_parts (ra_deg dec_deg r : F) (target_list : list (Row F)) :
  let bounds := query_bounds (deg2rad ra_deg) (deg2rad dec_deg) r in
  let q := targets_query bounds ra_deg dec_deg r in
  derived_table q target_list = List.filter (in_some_box bounds) target_list /\
  run_targets_query q target_list =
    List.filter (within_radius ra_deg dec_deg r) (derived_table q target_list).
Proof.
  cbv zeta. split.
  - unfold derived_table, run_box_query; cbn [from_query targets_query].
    apply filter_ext. intros row. apply box_where_query_bounds.
  - unfold run_targets_query. apply filter_ext. intros row.
    apply separation_where_within.
Qed.

End TwoStageParts.

(** ** Where the boxes do cover the field of view *)

Section Coverage.
Local Open Scope R_scope.

Lemma acos_lt_cos (x r : R) :
  -1 <= x <= 1 -> 0 < r <= PI -> acos x < r -> cos r < x.
Proof.
  intros Hx Hr Hlt. pose proof (acos_bound x) as Hb.
  pose proof (cos_decreasing_1 (acos x) r) as Hd.
  rewrite (cos_acos x Hx) in Hd. apply Hd; lra.
Qed.

(** The argument of ACOS for two points with declinations in
    [-pi/2, pi/2] is a cosine: it lies in [-1, 1], and it is at most the
    cosine of the difference of the declinations. *)
Lemma cosine_of_separation_bounds (dc dp delta : R) :
  - (PI / 2) <= dc <= PI / 2 -> - (PI / 2) <= dp <= PI / 2 ->
  -1 <= sin dc * sin dp + cos dc * cos dp * cos delta <= cos (dc - dp).
Proof.
  intros Hdc Hdp.
  pose proof (cos_ge_0 dc ltac:(lra) ltac:(lra)) as Hc1.
  pose proof (cos_ge_0 dp ltac:(lra) ltac:(lra)) as Hc2.
  pose proof (COS_bound delta) as Hk.
  pose proof (COS_bound (dc + dp)) as Hsum.
  rewrite cos_plus in Hsum. rewrite cos_minus.
  assert (Hprod : 0 <= cos dc * cos dp) by (apply Rmult_le_pos; assumption).
  split; nra.
Qed.

Lemma separation_bounds_declination (ra dec p_ra p_dec r : R) :
  - (PI / 2) <= dec <= PI / 2 -> - (PI / 2) <= p_dec <= PI / 2 ->
  0 < r <= PI ->
  separation ra dec p_ra p_dec < r ->
  dec - r < p_dec < dec + r.
Proof.
  intros Hdec Hp Hr Hsep. unfold separation in Hsep.
  pose proof (cosine_of_separation_bounds dec p_dec (ra - p_ra) Hdec Hp) as [Hlo Hhi].
  pose proof (COS_bound (dec - p_dec)) as Hcb.
  apply acos_lt_cos in Hsep; [| lra | lra].
  assert (Hcos : cos r < cos (dec - p_dec)) by lra.
  destruct (Rle_dec 0 (dec - p_dec)) as [Hpos | Hneg].
  - apply cos_decreasing_0 in Hcos; lra.
  - rewrite <- (cos_neg (dec - p_dec)) in Hcos. apply cos_decreasing_0 in Hcos; lra.
Qed.

(** Away from the poles the cosine of the declination of the pointing
    exceeds the sine of the radius, so the argument of [np.arcsin] in
    [query_bounds] is in (0, 1). *)
Lemma cos_dec_exceeds_sin_r (dec r : R) :
  0 < r -> dec + r < PI / 2 -> dec - r > - (PI / 2) ->
  0 < sin r < cos dec.
Proof.
  intros Hr Hn Hs. split; [apply sin_gt_0; lra |].
  rewrite <- (cos_shift r).
  destruct (Rle_dec 0 dec) as [Hpos | Hneg].
  - apply cos_decreasing_1; lra.
  - rewrite <- (cos_neg dec). apply cos_decreasing_1; lra.
Qed.

(** The algebra behind the offset in right ascension.  [A], [S] are the
    cosine and sine of the declination of the pointing, [c], [p] those of
    the point, [C], [s] those of the radius, [k] the cosine of the
    difference in right ascension. *)
Lemma ra_offset_algebra (A S c p C s k : R) :
  A * A + S * S = 1 -> c * c + p * p = 1 -> C * C + s * s = 1 ->
  0 < s < A -> 0 < C -> 0 <= c -> -1 <= k <= 1 ->
  C < S * p + A * c * k ->
  0 < k /\ A * A * (1 - k * k) < s * s.
Proof.
  intros HA Hc HC Hs HCpos Hcpos Hk Hsep.
  assert (HSC : S * S < C * C) by nra.
  assert (Hp : -1 <= p <= 1) by nra.
  assert (HSp : S * p < C).
  { assert (S * p * (S * p) < C * C) by nra.
    destruct (Rle_dec 0 (S * p)); nra. }
  assert (Hk0 : 0 < A * c * k) by lra.
  assert (HAc : 0 <= A * c) by nra.
  assert (Hkpos : 0 < k) by nra.
  split; [exact Hkpos |].
  assert (Hcpos' : 0 < c) by nra.
  assert (Hsq : (C - S * p) * (C - S * p) < A * c * k * (A * c * k)) by nra.
  assert (Hid : (C * C - S * S) * (c * c) <= (C - S * p) * (C - S * p)).
  { replace (c * c) with (1 - p * p) by lra.
    assert (Hring : (C - S * p) * (C - S * p) - (C * C - S * S) * (1 - p * p)
                    = (C * p - S) * (C * p - S)) by ring.
    pose proof (Rle_0_sqr (C * p - S)) as Hnn. unfold Rsqr in Hnn. lra. }
  assert (Hmain : (C * C - S * S) * (c * c) < A * A * (k * k) * (c * c)).
  { replace (A * A * (k * k) * (c * c)) with (A * c * k * (A * c * k)) by ring. lra. }
  assert (Hcc : 0 < c * c) by nra.
  assert (C * C - S * S < A * A * (k * k)) by nra.
  nra.
Qed.

Lemma separation_bounds_ra_sine (ra dec p_ra p_dec r : R) :
  0 < r -> dec + r < PI / 2 -> dec - r > - (PI / 2) ->
  - (PI / 2) <= p_dec <= PI / 2 ->
  separation ra dec p_ra p_dec < r ->
  0 < cos (ra - p_ra) /\
  - (sin r / cos dec) < sin (ra - p_ra) < sin r / cos dec.
Proof.
  intros Hr Hn Hs Hp Hsep. unfold separation in Hsep.
  pose proof (cos_dec_exceeds_sin_r dec r Hr Hn Hs) as HsA.
  pose proof (cosine_of_separation_bounds dec p_dec (ra - p_ra) ltac:(lra) Hp) as [Hlo Hhi].
  pose proof (COS_bound (dec - p_dec)) as Hcb.
  apply acos_lt_cos in Hsep; [| lra | lra].
  pose proof (sin2_cos2 dec) as HA. pose proof (sin2_cos2 p_dec) as Hc.
  pose proof (sin2_cos2 r) as HC. pose proof (sin2_cos2 (ra - p_ra)) as Hd.
  unfold Rsqr in HA, Hc, HC, Hd.
  pose proof (cos_gt_0 r ltac:(lra) ltac:(lra)) as HCpos.
  pose proof (cos_ge_0 p_dec ltac:(lra) ltac:(lra)) as Hcpos.
  pose proof (COS_bound (ra - p_ra)) as Hk.
  destruct (ra_offset_algebra (cos dec) (sin dec) (cos p_dec) (sin p_dec)
              (cos r) (sin r) (cos (ra - p_ra))) as [Hkpos Hsq]; try lra.
  split; [exact Hkpos |].
  set (A := cos dec) in *. set (s := sin r) in *. set (d := sin (ra - p_ra)) in *.
  assert (Hd2 : A * d * (A * d) < s * s).
  { replace (A * d * (A * d)) with (A * A * (d * d)) by ring.
    replace (d * d) with (1 - cos (ra - p_ra) * cos (ra - p_ra)) by lra. exact Hsq. }
  assert (Hquot : s / A * A = s) by (field; lra).
  assert (Habs : - s < A * d < s) by (split; nra).
  split; nra.
Qed.

(** The offset [ra_off] of [query_bounds] away from the poles. *)
Lemma ra_off_range (dec r : R) :
  0 < r -> dec + r < PI / 2 -> dec - r > - (PI / 2) ->
  0 < asin (sin r / cos dec) < PI / 2 /\
  sin (asin (sin r / cos dec)) = sin r / cos dec.
Proof.
  intros Hr Hn Hs.
  pose proof (cos_dec_exceeds_sin_r dec r Hr Hn Hs) as HsA.
  assert (Hquot : sin r / cos dec * cos dec = sin r) by (field; lra).
  assert (Hratio : 0 < sin r / cos dec < 1).
  { split.
    - apply Rdiv_lt_0_compat; lra.
    - nra. }
  pose proof (asin_bound_lt (sin r / cos dec) ltac:(lra)) as Hb.
  pose proof (sin_asin (sin r / cos dec) ltac:(lra)) as Hsin.
  split; [| exact Hsin]. split; [| lra].
  apply sin_increasing_0; try lra. rewrite sin_0, Hsin. lra.
Qed.

Lemma angle_within_offset (delta off : R) :
  - PI <= delta <= PI -> 0 < cos delta ->
  - sin off < sin delta < sin off -> 0 < off < PI / 2 ->
  - off < delta < off.
Proof.
  intros Hd Hcos Hsin Hoff.
  assert (Hhalf : - (PI / 2) < delta < PI / 2).
  { split.
    - destruct (Rlt_dec (- (PI / 2)) delta) as [| Hle]; [assumption | exfalso].
      pose proof (cos_le_0 (- delta) ltac:(lra) ltac:(lra)) as Hc.
      rewrite cos_neg in Hc. lra.
    - destruct (Rlt_dec delta (PI / 2)) as [| Hge]; [assumption | exfalso].
      pose proof (cos_le_0 delta ltac:(lra) ltac:(lra)) as Hc. lra. }
  split.
  - assert (Hneg : - delta < off); [| lra].
    apply sin_increasing_0; try lra. rewrite sin_neg. lra.
  - apply sin_increasing_0; lra.
Qed.

(** A difference of two right ascensions of [0, 2 pi] that passes the
    test is within the offset of 0, of 2 pi or of -2 pi. *)
Lemma angle_within_offset_mod (delta off : R) :
  - (2 * PI) < delta < 2 * PI -> 0 < cos delta ->
  - sin off < sin delta < sin off -> 0 < off < PI / 2 ->
  - off < delta < off \/ 2 * PI - off < delta \/ delta < - (2 * PI) + off.
Proof.
  intros Hd Hcos Hsin Hoff.
  destruct (Rle_dec delta PI) as [Hle | Hgt].
  - destruct (Rle_dec (- PI) delta) as [Hge | Hlt].
    + left. apply angle_within_offset; lra.
    + right; right.
      assert (Hw : - off < delta + 2 * PI < off); [| lra].
      apply angle_within_offset; try lra.
      * rewrite cos_plus, cos_2PI, sin_2PI. lra.
      * rewrite sin_plus, cos_2PI, sin_2PI. lra.
  - right; left.
    assert (Hw : - off < delta - 2 * PI < off); [| lra].
    apply angle_within_offset; try lra.
    + rewrite cos_minus, cos_2PI, sin_2PI. lra.
    + rewrite sin_minus, cos_2PI, sin_2PI. lra.
Qed.

(** The last branch: the box stays within [0, 2 pi]. *)
Lemma query_bounds_within_range (ra dec r : R) :
  dec + r < PI / 2 -> dec - r > - (PI / 2) ->
  ra - asin (sin r / cos dec) >= 0 ->
  ra + asin (sin r / cos dec) <= 2 * PI ->
  query_bounds ra dec r =
    [mkBox (ra - asin (sin r / cos dec)) (ra + asin (sin r / cos dec))
           (dec - r) (dec + r)].
Proof.
  intros Hn Hs Hlow Hhigh. rewrite query_bounds_R.
  rewrite Rgeb_false, Rleb_false by lra. cbv zeta.
  rewrite Rltb_false, Rgtb_false by lra. reflexivity.
Qed.

Lemma separation_self (ra dec : R) : separation ra dec ra dec = 0.
Proof.
  unfold separation. replace (ra - ra) with 0 by lra. rewrite cos_0.
  replace (sin dec * sin dec + cos dec * cos dec * 1)
    with ((sin dec)² + (cos dec)²) by (unfold Rsqr; lra).
  rewrite sin2_cos2. apply acos_1.
Qed.

(** Position of a point of the field of view relative to the pointing,
    away from the poles. *)
Lemma field_point_position (ra dec p_ra p_dec r : R) :
  0 < r -> dec + r < PI / 2 -> dec - r > - (PI / 2) ->
  - (PI / 2) <= p_dec <= PI / 2 ->
  - (2 * PI) < ra - p_ra < 2 * PI ->
  separation ra dec p_ra p_dec < r ->
  let ra_off := asin (sin r / cos dec) in
  dec - r < p_dec < dec + r /\
  (- ra_off < ra - p_ra < ra_off \/ 2 * PI - ra_off < ra - p_ra
   \/ ra - p_ra < - (2 * PI) + ra_off).
Proof.
  intros Hr Hn Hs Hp Hd Hsep ra_off. pose proof PI_RGT_0 as Hpi.
  split.
  - apply (separation_bounds_declination ra dec p_ra p_dec r); lra.
  - destruct (separation_bounds_ra_sine ra dec p_ra p_dec r Hr Hn Hs Hp Hsep)
      as [Hcos Hsin].
    destruct (ra_off_range dec r Hr Hn Hs) as [Hoff Hsinoff]. fold ra_off in Hoff, Hsinoff.
    apply angle_within_offset_mod; try assumption. rewrite Hsinoff. exact Hsin.
Qed.

(** X1: When [query_bounds] returns the single box around the pointing, every
    point of the sphere at angular separation less than [r] from the
    pointing lies strictly inside that box. *)
Theorem single_box_covers_field (ra dec r p_ra p_dec : R) :
  0 < r -> dec + r < PI / 2 -> dec - r > - (PI / 2) ->
  ra - asin (sin r / cos dec) >= 0 ->
  ra + asin (sin r / cos dec) <= 2 * PI ->
  0 <= p_ra <= 2 * PI -> - (PI / 2) <= p_dec <= PI / 2 ->
  separation ra dec p_ra p_dec < r ->
  Exists (fun b => inside_open b p_ra p_dec) (query_bounds ra dec r).
Proof.
  intros Hr Hn Hs Hlow Hhigh Hpra Hp Hsep.
  destruct (ra_off_range dec r Hr Hn Hs) as [Hoff _].
  rewrite query_bounds_within_range by lra.
  destruct (field_point_position ra dec p_ra p_dec r) as [Hdec Hra];
    try assumption; [lra |].
  apply Exists_cons_hd. unfold inside_open; cbn. lra.
Qed.

Lemma single_box_covers_field_witness :
  Exists (fun b => inside_open b PI 0) (query_bounds PI 0 (PI / 4)).
Proof.
  pose proof PI_RGT_0 as Hpi.
  pose proof (asin_bound (sin (PI / 4) / cos 0)) as Hb.
  apply (single_box_covers_field PI 0 (PI / 4) PI 0); try lra.
  rewrite separation_self. lra.
Defined.

(** X2: When the box ends above RA 2 pi and [query_bounds] splits it at 2 pi,
    every point at angular separation less than [r] from the pointing,
    with right ascension strictly between 0 and 2 pi, lies strictly
    inside one of the two boxes. *)
Theorem wrapped_boxes_cover_field (ra dec r p_ra p_dec : R) :
  0 < r -> dec + r < PI / 2 -> dec - r > - (PI / 2) ->
  ra - asin (sin r / cos dec) >= 0 ->
  ra + asin (sin r / cos dec) > 2 * PI ->
  ra <= 2 * PI ->
  0 < p_ra < 2 * PI -> - (PI / 2) <= p_dec <= PI / 2 ->
  separation ra dec p_ra p_dec < r ->
  Exists (fun b => inside_open b p_ra p_dec) (query_bounds ra dec r).
Proof.
  intros Hr Hn Hs Hlow Hhigh Hra Hpra Hp Hsep.
  destruct (ra_off_range dec r Hr Hn Hs) as [Hoff _].
  rewrite query_bounds_above_two_pi by lra.
  destruct (field_point_position ra dec p_ra p_dec r) as [Hdec Hcases];
    try assumption; [lra |].
  destruct Hcases as [Hnear | [Hwrap | Hfar]].
  - apply Exists_cons_hd. unfold inside_open; cbn. lra.
  - apply Exists_cons_tl, Exists_cons_hd. unfold inside_open; cbn. lra.
  - exfalso. lra.
Qed.

Lemma separation_358_1 :
  separation (358 * PI / 180) 0 (PI / 180) 0 = 3 * PI / 180.
Proof.
  pose proof PI_RGT_0 as Hpi. unfold separation.
  rewrite sin_0, cos_0.
  replace (358 * PI / 180 - PI / 180) with (2 * PI - 3 * PI / 180) by lra.
  rewrite cos_minus, cos_2PI, sin_2PI.
  replace (0 * 0 + 1 * 1 * (1 * cos (3 * PI / 180) + 0 * sin (3 * PI / 180)))
    with (cos (3 * PI / 180)) by lra.
  apply acos_cos. lra.
Qed.

Lemma wrapped_boxes_cover_field_witness :
  Exists (fun b => inside_open b (PI / 180) 0)
         (query_bounds (358 * PI / 180) 0 (5 * PI / 180)).
Proof.
  pose proof PI_RGT_0 as Hpi.
  apply (wrapped_boxes_cover_field (358 * PI / 180) 0 (5 * PI / 180) (PI / 180) 0);
    rewrite ?ra_off_equator_5deg, ?separation_358_1; lra.
Defined.

(** X3: In the north-pole case, every point at angular separation less than
    [r] from the pointing that is not on the meridian RA 0 = 2 pi and not
    the pole itself lies strictly inside the box returned. *)
Theorem north_pole_box_covers_field (ra dec r p_ra p_dec : R) :
  0 < r < PI / 2 -> dec + r >= PI / 2 -> dec <= PI / 2 ->
  0 < p_ra < 2 * PI -> - (PI / 2) <= p_dec < PI / 2 ->
  separation ra dec p_ra p_dec < r ->
  Exists (fun b => inside_open b p_ra p_dec) (query_bounds ra dec r).
Proof.
  intros Hr Hn Hdec Hpra Hp Hsep. pose proof PI_RGT_0 as Hpi.
  rewrite query_bounds_north by lra.
  pose proof (separation_bounds_declination ra dec p_ra p_dec r
                ltac:(lra) ltac:(lra) ltac:(lra) Hsep) as Hd.
  apply Exists_cons_hd. unfold inside_open; cbn. lra.
Qed.

Lemma north_pole_box_covers_field_witness :
  Exists (fun b => inside_open b PI (3 * PI / 8))
         (query_bounds PI (3 * PI / 8) (PI / 4)).
Proof.
  pose proof PI_RGT_0 as Hpi.
  apply (north_pole_box_covers_field PI (3 * PI / 8) (PI / 4) PI (3 * PI / 8));
    rewrite ?separation_self; lra.
Defined.

(** *** From radians to the SQL text in degrees *)

Lemma deg2rad_R (x : R) : deg2rad x = x * (PI / 180).
Proof.
  unfold deg2rad; cbn. change (Q2R 180) with (Q2R (inject_Z 180)).
  rewrite Q2R_integer. reflexivity.
Qed.

Lemma rad2deg_R (x : R) : rad2deg x = x * (180 / PI).
Proof.
  unfold rad2deg; cbn. change (Q2R 180) with (Q2R (inject_Z 180)).
  rewrite Q2R_integer. reflexivity.
Qed.

Lemma rad2deg_lt (a x : R) : rad2deg a < x <-> a < deg2rad x.
Proof.
  pose proof PI_RGT_0 as Hpi. rewrite rad2deg_R, deg2rad_R.
  assert (Hinv : a * (180 / PI) * (PI / 180) = a) by (field; lra).
  assert (Hpos : 0 < PI / 180) by lra.
  split; intros Hlt.
  - rewrite <- Hinv. apply Rmult_lt_compat_r; assumption.
  - apply (Rmult_lt_reg_r (PI / 180)); [assumption | lra].
Qed.

Lemma rad2deg_gt (a x : R) : x < rad2deg a <-> deg2rad x < a.
Proof.
  pose proof PI_RGT_0 as Hpi. rewrite rad2deg_R, deg2rad_R.
  assert (Hinv : a * (180 / PI) * (PI / 180) = a) by (field; lra).
  assert (Hpos : 0 < PI / 180) by lra.
  split; intros Hlt.
  - rewrite <- Hinv. apply Rmult_lt_compat_r; assumption.
  - apply (Rmult_lt_reg_r (PI / 180)); [assumption | lra].
Qed.

Lemma Rltb_iff (x y : R) : Rltb x y = true <-> x < y.
Proof. unfold Rltb. destruct (Rlt_dec x y); split; intros; (reflexivity || lra || discriminate). Qed.

Lemma Rgtb_iff (x y : R) : Rgtb x y = true <-> x > y.
Proof. unfold Rgtb. destruct (Rgt_dec x y); split; intros; (reflexivity || lra || discriminate). Qed.

Lemma between_R (lo hi x : R) : between lo hi x = true <-> lo < x < hi.
Proof.
  unfold between; cbn. rewrite andb_true_iff, Rgtb_iff, Rltb_iff. lra.
Qed.

(** The SQL test on a box converted to degrees is the strict membership
    of the row, converted to radians, in the box. *)
Lemma in_box_inside_open (b : Box R) (row : Row R) :
  in_box (rad2deg_box b) row = true <->
  inside_open b (deg2rad (ra row)) (deg2rad (decl row)).
Proof.
  unfold in_box, inside_open, rad2deg_box; cbn [ra_min ra_max dec_min dec_max].
  rewrite andb_true_iff, !between_R.
  pose proof (rad2deg_lt (ra_min b) (ra row)). pose proof (rad2deg_gt (ra_max b) (ra row)).
  pose proof (rad2deg_lt (dec_min b) (decl row)). pose proof (rad2deg_gt (dec_max b) (decl row)).
  tauto.
Qed.

Lemma in_some_box_Exists (bounds : list (Box R)) (row : Row R) :
  Exists (fun b => inside_open b (deg2rad (ra row)) (deg2rad (decl row))) bounds ->
  in_some_box bounds row = true.
Proof.
  intros Hex. unfold in_some_box. apply existsb_exists.
  apply Exists_exists in Hex as (b & Hin & Hb).
  exists b. split; [apply list_elem_of_In; exact Hin | apply in_box_inside_open; exact Hb].
Qed.

Lemma within_radius_separation (ra_deg dec_deg r : R) (row : Row R) :
  within_radius ra_deg dec_deg r row = true <->
  separation (deg2rad ra_deg) (deg2rad dec_deg)
             (deg2rad (ra row)) (deg2rad (decl row)) < r.
Proof.
  unfold within_radius, separation; cbn [flt facos fsin fcos fadd fmul fsub Floating_R].
  rewrite Rltb_iff.
  replace (sin (deg2rad (decl row)) * sin (deg2rad dec_deg) +
           cos (deg2rad (decl row)) * cos (deg2rad dec_deg) *
           cos (deg2rad ra_deg - deg2rad (ra row)))
    with (sin (deg2rad dec_deg) * sin (deg2rad (decl row)) +
          cos (deg2rad dec_deg) * cos (deg2rad (decl row)) *
          cos (deg2rad ra_deg - deg2rad (ra row))) by ring.
  reflexivity.
Qed.

Lemma filter_filter_implied {A} (f g : A -> bool) (l : list A) :
  Forall (fun x => f x = true -> g x = true) l ->
  List.filter f (List.filter g l) = List.filter f l.
Proof.
  induction 1 as [| x l Hx _ IH]; cbn; [reflexivity |].
  destruct (g x) eqn:Eg; cbn.
  - destruct (f x); rewrite IH; reflexivity.
  - destruct (f x) eqn:Ef; [discriminate (Hx eq_refl) | exact IH].
Qed.

(** The boxes cover the field of view on every branch of [query_bounds]
    except the south-pole branch and the branch for a box that starts
    below RA 0. *)
Lemma boxes_cover_outside_defects (ra dec r p_ra p_dec : R) :
  0 < r < PI / 2 -> 0 <= ra <= 2 * PI -> - (PI / 2) <= dec <= PI / 2 ->
  dec + r >= PI / 2 \/
    (dec - r > - (PI / 2) /\ ra - asin (sin r / cos dec) >= 0) ->
  0 < p_ra < 2 * PI -> - (PI / 2) <= p_dec < PI / 2 ->
  separation ra dec p_ra p_dec < r ->
  Exists (fun b => inside_open b p_ra p_dec) (query_bounds ra dec r).
Proof.
  intros Hr Hra Hdec Hbranch Hpra Hp Hsep. pose proof PI_RGT_0 as Hpi.
  destruct (Rge_dec (dec + r) (PI / 2)) as [Hn | Hn].
  - rewrite query_bounds_north by lra.
    pose proof (separation_bounds_declination ra dec p_ra p_dec r
                  ltac:(lra) ltac:(lra) ltac:(lra) Hsep) as Hd.
    apply Exists_cons_hd. unfold inside_open; cbn. lra.
  - destruct Hbranch as [Hc | [Hs Hlow]]; [lra |].
    destruct (ra_off_range dec r ltac:(lra) ltac:(lra) Hs) as [Hoff _].
    destruct (field_point_position ra dec p_ra p_dec r) as [Hd Hcases];
      try assumption; try lra.
    destruct (Rle_dec (ra + asin (sin r / cos dec)) (2 * PI)) as [Hhigh | Hhigh].
    + rewrite query_bounds_within_range by lra.
      apply Exists_cons_hd. unfold inside_open; cbn. lra.
    + rewrite query_bounds_above_two_pi by lra.
      destruct Hcases as [Hnear | [Hwrap | Hfar]].
      * apply Exists_cons_hd. unfold inside_open; cbn. lra.
      * apply Exists_cons_tl, Exists_cons_hd. unfold inside_open; cbn. lra.
      * exfalso. lra.
Qed.

(** X4: On every branch of [query_bounds] except the south-pole branch and
    the branch for a box that starts below RA 0, the two-stage query
    returns exactly the catalogue rows within the beam radius: the
    rectangular pre-filter removes no such row (rows on the meridian
    RA 0 and at the pole apart). *)
Theorem two_stage_query_is_exact (ra_deg dec_deg r : R) (target_list : list (Row R)) :
  0 < r < PI / 2 -> 0 <= ra_deg <= 360 -> -90 <= dec_deg <= 90 ->
  deg2rad dec_deg + r >= PI / 2 \/
    (deg2rad dec_deg - r > - (PI / 2) /\
     deg2rad ra_deg - asin (sin r / cos (deg2rad dec_deg)) >= 0) ->
  Forall interior_row target_list ->
  run_targets_query
    (targets_query (query_bounds (deg2rad ra_deg) (deg2rad dec_deg) r) ra_deg dec_deg r)
    target_list =
  List.filter (within_radius ra_deg dec_deg r) target_list.
Proof.
  intros Hr Hra Hdec Hbranch Hrows. pose proof PI_RGT_0 as Hpi.
  destruct (two_stage_parts ra_deg dec_deg r target_list) as [Hd Hrun].
  rewrite Hrun, Hd. apply filter_filter_implied.
  eapply Forall_impl; [exact Hrows |].
  intros row [Hrow_ra Hrow_dec] Hin.
  apply in_some_box_Exists. apply within_radius_separation in Hin.
  apply boxes_cover_outside_defects; try assumption; rewrite !deg2rad_R; nra.
Qed.

Lemma two_stage_query_is_exact_witness :
  run_targets_query
    (targets_query (query_bounds (deg2rad 180) (deg2rad 0) (PI / 4)) 180 0 (PI / 4))
    [mkRow "near" 181 1 10; mkRow "far" 10 (-45) 20] =
  List.filter (within_radius 180 0 (PI / 4))
    [mkRow "near" 181 1 10; mkRow "far" 10 (-45) 20].
Proof.
  pose proof PI_RGT_0 as Hpi.
  pose proof (asin_bound (sin (PI / 4) / cos (deg2rad 0))) as Hb.
  apply (two_stage_query_is_exact 180 0 (PI / 4)); try lra.
  - right. rewrite !deg2rad_R. rewrite deg2rad_R in Hb. lra.
  - repeat constructor; cbn; lra.
Defined.
End Coverage.

(** ** The beam radius *)

Section BeamRadius.
Local Open Scope R_scope.

Lemma beam_radius_value (fecenter : R) :
  fecenter <> 0 ->
  beam_radius fecenter = Some (299792458 / (50000000 * fecenter)).
Proof.
  intros Hx. rewrite beam_radius_R by exact Hx. f_equal.
  change (Q2R 299792458) with (Q2R (inject_Z 299792458)).
  change (Q2R 1000000) with (Q2R (inject_Z 1000000)).
  change (Q2R 25) with (Q2R (inject_Z 25)).
  rewrite !Q2R_integer. unfold Q2R; cbn. field. exact Hx.
Qed.

(** X7: For a centre frequency of at least 4 MHz the beam radius is positive
    and below pi/2, the range that [query_bounds] assumes. *)
Theorem beam_radius_in_range (fecenter : R) :
  4 <= fecenter ->
  exists r, beam_radius fecenter = Some r /\ 0 < r < PI / 2.
Proof.
  intros Hf. pose proof PI2_3_2 as Hpi.
  rewrite beam_radius_value by lra. eexists; split; [reflexivity |].
  assert (Hq : 299792458 / (50000000 * fecenter) * (50000000 * fecenter) = 299792458)
    by (field; lra).
  set (q := 299792458 / (50000000 * fecenter)) in *.
  split; nra.
Qed.

Lemma beam_radius_in_range_witness :
  exists r, beam_radius 1420 = Some r /\ 0 < r < PI / 2.
Proof. apply (beam_radius_in_range 1420). lra. Defined.

(** X8: Below 2.99 MHz the beam radius exceeds pi/2: nothing in the
    program keeps the radius within the range [query_bounds] assumes. *)
Theorem beam_radius_out_of_range (fecenter : R) :
  0 < fecenter <= 299 / 100 ->
  exists r, beam_radius fecenter = Some r /\ PI / 2 < r.
Proof.
  intros Hf. pose proof PI_4 as Hpi.
  rewrite beam_radius_value by lra. eexists; split; [reflexivity |].
  assert (Hq : 299792458 / (50000000 * fecenter) * (50000000 * fecenter) = 299792458)
    by (field; lra).
  set (q := 299792458 / (50000000 * fecenter)) in *.
  nra.
Qed.

Lemma beam_radius_out_of_range_witness :
  exists r, beam_radius 1 = Some r /\ PI / 2 < r.
Proof. apply (beam_radius_out_of_range 1). lra. Defined.

(** X9: A higher centre frequency gives a smaller beam radius. *)
Theorem beam_radius_decreasing (f1 f2 : R) :
  0 < f1 < f2 ->
  exists r1 r2, beam_radius f1 = Some r1 /\ beam_radius f2 = Some r2 /\ r2 < r1.
Proof.
  intros Hf. rewrite !beam_radius_value by lra.
  eexists; eexists; split; [reflexivity | split; [reflexivity |]].
  assert (H1 : 299792458 / (50000000 * f1) * (50000000 * f1) = 299792458) by (field; lra).
  assert (H2 : 299792458 / (50000000 * f2) * (50000000 * f2) = 299792458) by (field; lra).
  set (q1 := 299792458 / (50000000 * f1)) in *.
  set (q2 := 299792458 / (50000000 * f2)) in *.
  assert (Hq2 : 0 < q2) by nra.
  nra.
Qed.

Lemma beam_radius_decreasing_witness :
  exists r1 r2, beam_radius 856 = Some r1 /\ beam_radius 1712 = Some r2 /\ r2 < r1.
Proof. apply (beam_radius_decreasing 856 1712). lra. Defined.

Lemma filter_none {A} (f : A -> bool) (l : list A) :
  Forall (fun x => f x = false) l -> List.filter f l = [].
Proof.
  induction 1 as [| x l Hx _ IH]; cbn; [reflexivity |]. rewrite Hx. exact IH.
Qed.

(** X10: A negative centre frequency is not rejected: the beam radius is
    negative, and for every pointing off the poles at which the argument
    sin(r)/cos(dec) of the arcsin of [query_bounds] lies in [-1, 1], no
    angular separation is below the radius and the query returns no row
    for any catalogue. *)
Theorem negative_frequency_matches_nothing (fecenter : R) :
  fecenter < 0 ->
  exists r, beam_radius fecenter = Some r /\ r < 0 /\
    forall (ra_deg dec_deg : R) (target_list : list (Row R)),
      -90 < dec_deg < 90 ->
      -1 <= sin r / cos (deg2rad dec_deg) <= 1 ->
      run_targets_query
        (targets_query (query_bounds (deg2rad ra_deg) (deg2rad dec_deg) r)
                       ra_deg dec_deg r)
        target_list = [].
Proof.
  intros Hf. rewrite beam_radius_value by lra. eexists; split; [reflexivity |].
  assert (Hq : 299792458 / (50000000 * fecenter) * (50000000 * fecenter) = 299792458)
    by (field; lra).
  set (r := 299792458 / (50000000 * fecenter)) in *.
  assert (Hr : r < 0) by nra.
  split; [exact Hr |]. intros ra_deg dec_deg target_list _ _.
  unfold run_targets_query. apply filter_none.
  apply Forall_forall. intros row _.
  rewrite separation_where_within.
  destruct (within_radius ra_deg dec_deg r row) eqn:E; [exfalso | reflexivity].
  apply within_radius_separation in E. unfold separation in E.
  pose proof (acos_bound (sin (deg2rad dec_deg) * sin (deg2rad (decl row)) +
                          cos (deg2rad dec_deg) * cos (deg2rad (decl row)) *
                          cos (deg2rad ra_deg - deg2rad (ra row)))) as Hb.
  lra.
Qed.

Lemma negative_frequency_matches_nothing_witness :
  exists r, beam_radius (-1420) = Some r /\ r < 0 /\
    forall (ra_deg : R) (target_list : list (Row R)),
      run_targets_query
        (targets_query (query_bounds (deg2rad ra_deg) (deg2rad 0) r) ra_deg 0 r)
        target_list = [].
Proof.
  destruct (negative_frequency_matches_nothing (-1420)) as (r & Hb & Hr & Hq); [lra |].
  exists r. split; [exact Hb |]. split; [exact Hr |].
  intros ra_deg target_list. apply Hq; [lra |].
  rewrite deg2rad_R. replace (0 * (PI / 180)) with 0 by lra. rewrite cos_0.
  pose proof (SIN_bound r). lra.
Defined.

End BeamRadius.

(** ** What the two remaining branches return *)

Section RemainingBranches.
Local Open Scope R_scope.

Lemma in_some_box_true_inv (bounds : list (Box R)) (row : Row R) :
  in_some_box bounds row = true ->
  Exists (fun b => inside_open b (deg2rad (ra row)) (deg2rad (decl row))) bounds.
Proof.
  unfold in_some_box. intros Hex. apply existsb_exists in Hex as (b & Hin & Hb).
  apply List.Exists_exists. exists b. split; [exact Hin | apply in_box_inside_open; exact Hb].
Qed.

(** X5: In the south-pole case the only box has its lower declination bound
    (pi/2) above its upper one, no catalogue row passes the pre-filter,
    and the query returns no row whatever the catalogue holds. *)
Theorem south_pole_query_returns_nothing (ra_deg dec_deg r : R) (target_list : list (Row R)) :
  deg2rad dec_deg - r <= - (PI / 2) -> deg2rad dec_deg + r < PI / 2 ->
  run_targets_query
    (targets_query (query_bounds (deg2rad ra_deg) (deg2rad dec_deg) r) ra_deg dec_deg r)
    target_list = [].
Proof.
  intros Hs Hn.
  destruct (two_stage_parts ra_deg dec_deg r target_list) as [Hd Hrun].
  rewrite Hrun, Hd.
  rewrite (filter_none (in_some_box _)); [reflexivity |].
  apply Forall_forall. intros row _.
  destruct (in_some_box _ row) eqn:E; [exfalso | reflexivity].
  apply in_some_box_true_inv in E. rewrite query_bounds_south in E by lra.
  apply Exists_cons in E as [Hb | Hnil]; [| inversion Hnil].
  unfold inside_open in Hb; cbn [ra_min ra_max dec_min dec_max] in Hb. lra.
Qed.

Lemma south_pole_query_returns_nothing_witness :
  run_targets_query
    (targets_query (query_bounds (deg2rad 10) (deg2rad (-90)) 1) 10 (-90) 1)
    [mkRow "near the pole" 10 (-89) 5] = [].
Proof.
  pose proof PI_RGT_0 as Hpi. pose proof PI2_1 as H1.
  apply (south_pole_query_returns_nothing 10 (-90) 1); rewrite deg2rad_R; lra.
Defined.



End RemainingBranches.

(** ** Which messages are recognised *)

Section Fields.

Lemma split_cons (sep : ascii) (s : string) :
  exists w ws, split sep s = w :: ws.
Proof.
  induction s as [| c s IH]; cbn; [eauto |].
  destruct (Ascii.eqb c sep); [eauto |].
  destruct IH as (w & ws & ->). eauto.
Qed.

Lemma split_length (sep : ascii) (s : string) :
  length (split sep s) = S (occurrences sep s).
Proof.
  induction s as [| c s IH]; cbn; [reflexivity |].
  destruct (Ascii.eqb c sep); cbn; [rewrite IH; reflexivity |].
  destruct (split_cons sep s) as (w & ws & Hs). rewrite Hs in *. exact IH.
Qed.

Lemma split_pieces (sep : ascii) (s : string) :
  Forall (fun w => occurrences sep w = 0) (split sep s).
Proof.
  induction s as [| c s IH]; cbn; [repeat constructor |].
  destruct (Ascii.eqb c sep) eqn:E; [constructor; [reflexivity | exact IH] |].
  destruct (split_cons sep s) as (w & ws & Hs). rewrite Hs in *.
  inversion IH as [| ? ? Hw Hws]; subst. constructor; [| exact Hws].
  cbn. rewrite E. exact Hw.
Qed.

Lemma string_app_assoc (a b c : string) : (a +:+ b) +:+ c = a +:+ (b +:+ c).
Proof.
  induction a as [| x a IH]; [reflexivity |].
  change (String x ((a +:+ b) +:+ c) = String x (a +:+ (b +:+ c))).
  rewrite IH. reflexivity.
Qed.

Lemma concat_cons (sep x y : string) (l : list string) :
  String.concat sep (x :: y :: l) = x +:+ sep +:+ String.concat sep (y :: l).
Proof. reflexivity. Qed.

Lemma concat_split (sep : ascii) (s : string) :
  String.concat (String sep EmptyString) (split sep s) = s.
Proof.
  induction s as [| c s IH]; cbn; [reflexivity |].
  destruct (Ascii.eqb c sep) eqn:E.
  - apply Ascii.eqb_eq in E. subst c.
    destruct (split_cons sep s) as (w & ws & Hs). rewrite Hs in *.
    rewrite concat_cons, IH. reflexivity.
  - destruct (split_cons sep s) as (w & ws & Hs). rewrite Hs in *.
    destruct ws as [| y l]; [cbn in *; f_equal; exact IH |].
    rewrite concat_cons in IH |- *. rewrite <- IH. reflexivity.
Qed.

Lemma split_app_piece (sep : ascii) (w rest : string) :
  occurrences sep w = 0 ->
  split sep (w +:+ String sep rest) = w :: split sep rest.
Proof.
  induction w as [| c w IH]; intros Hw.
  - change ("" +:+ String sep rest) with (String sep rest).
    cbn [split]. rewrite Ascii.eqb_refl. reflexivity.
  - change (String c w +:+ String sep rest) with (String c (w +:+ String sep rest)).
    cbn [split occurrences] in *.
    destruct (Ascii.eqb c sep); [discriminate Hw |].
    rewrite (IH Hw). reflexivity.
Qed.

Lemma split_piece (sep : ascii) (w : string) :
  occurrences sep w = 0 -> split sep w = [w].
Proof.
  induction w as [| c w IH]; intros Hw; [reflexivity |].
  cbn [split occurrences] in *.
  destruct (Ascii.eqb c sep); [discriminate Hw |].
  rewrite (IH Hw). reflexivity.
Qed.

(** X14: Splitting undoes joining: fields without the separator, joined with
    it, are split into exactly these fields. *)
Theorem split_concat (sep : ascii) (fields : list string) :
  fields <> [] ->
  Forall (fun w => occurrences sep w = 0) fields ->
  split sep (String.concat (String sep EmptyString) fields) = fields.
Proof.
  intros Hne Hfree. induction Hfree as [| w ws Hw Hws IH]; [contradiction |].
  destruct ws as [| w' ws'].
  - cbn. apply split_piece. exact Hw.
  - rewrite concat_cons.
    change (String sep "" +:+ String.concat (String sep "") (w' :: ws'))
      with (String sep (String.concat (String sep "") (w' :: ws'))).
    rewrite split_app_piece by exact Hw. f_equal. apply IH. discriminate.
Qed.

Lemma split_concat_witness :
  split colon (String.concat ":" ["MeerKAT"; "array1"; "169000000"; "3C286"; "202.78"; "30.51"; "1420.0"]) =
  ["MeerKAT"; "array1"; "169000000"; "3C286"; "202.78"; "30.51"; "1420.0"].
Proof.
  apply (split_concat colon); [discriminate | repeat constructor].
Defined.

Context {F : Type} `{Floating F}.

(** X12: [parse_msg] starts processing a message exactly when the message
    contains six colons; otherwise its only effect is the warning. *)
Theorem recognised_iff_six_colons (self : TargetsMinimal F) (msg : Message) (w : World F) :
  (occurrences colon (data msg) = 6 <->
   exists l, log (snd (parse_msg self msg w)) = log w ++ Info_Processing (data msg) :: l) /\
  (occurrences colon (data msg) <> 6 <->
   parse_msg self msg w =
     (Return tt, mkWorld (log w ++ [Warning_Unrecognised (data msg)])
                         (redis w) (published w) (executed w))).
Proof.
  pose proof (split_length colon (data msg)) as Hlen.
  assert (Hwarn : length (split colon (data msg)) <> 7 ->
                  parse_msg self msg w =
                    (Return tt, mkWorld (log w ++ [Warning_Unrecognised (data msg)])
                                        (redis w) (published w) (executed w)))
    by apply parse_msg_unrecognised.
  assert (Hproc : length (split colon (data msg)) = 7 ->
                  exists l, log (snd (parse_msg self msg w)) =
                            log w ++ Info_Processing (data msg) :: l).
  { intros H7. unfold parse_msg.
    destruct (split colon (data msg))
      as [| c0 [| c1 [| c2 [| c3 [| c4 [| c5 [| c6 [| c7 l]]]]]]]]; try discriminate H7.
    unfold calculate_targets, bind, write_log, float, division, read_sql,
      redis_set, redis_publish, ret, raise.
    destruct (float_of_string c4); cbn; [| eexists; reflexivity].
    destruct (float_of_string c5); cbn; [| eexists; reflexivity].
    destruct (float_of_string c6) as [fe |]; cbn; [| eexists; reflexivity].
    destruct (beam_radius fe); cbn; [| eexists; rewrite <- app_assoc; reflexivity].
    destruct (engine self _ _); cbn; eexists; rewrite <- !app_assoc; reflexivity. }
  split; split.
  - intros H6. apply Hproc. lia.
  - intros [l Hl]. destruct (Nat.eq_dec (occurrences colon (data msg)) 6) as [| Hne];
      [assumption | exfalso].
    rewrite Hwarn in Hl by lia. cbn in Hl.
    apply app_inv_head in Hl. discriminate Hl.
  - intros Hne. apply Hwarn. lia.
  - intros Hp Heq. destruct (Hproc ltac:(lia)) as [l Hl].
    rewrite Hp in Hl. cbn in Hl. apply app_inv_head in Hl. discriminate Hl.
Qed.

(** X13: A recognised message is its observation id followed by the four
    other fields, and no field contains a colon. *)
Theorem recognised_message_layout (msg : Message) (c0 c1 c2 c3 c4 c5 c6 : string) :
  split colon (data msg) = [c0; c1; c2; c3; c4; c5; c6] ->
  data msg = (c0 +:+ ":" +:+ c1 +:+ ":" +:+ c2)
               +:+ ":" +:+ c3 +:+ ":" +:+ c4 +:+ ":" +:+ c5 +:+ ":" +:+ c6 /\
  Forall (fun c => occurrences colon c = 0) [c0; c1; c2; c3; c4; c5; c6].
Proof.
  intros Hsplit. split.
  - rewrite <- (concat_split colon (data msg)) at 1. rewrite Hsplit.
    rewrite !string_app_assoc. reflexivity.
  - rewrite <- Hsplit. apply split_pieces.
Qed.

Lemma recognised_message_layout_witness :
  data example_message =
    ("MeerKAT" +:+ ":" +:+ "array1" +:+ ":" +:+ "169000000")
      +:+ ":" +:+ "3C286" +:+ ":" +:+ "202.78" +:+ ":" +:+ "30.51" +:+ ":" +:+ "1420.0" /\
  Forall (fun c => occurrences colon c = 0)
    ["MeerKAT"; "array1"; "169000000"; "3C286"; "202.78"; "30.51"; "1420.0"].
Proof.
  apply (recognised_message_layout example_message). reflexivity.
Defined.

End Fields.

(** ** Effects of the listener on the world *)

Section Effects.
Context {F : Type} `{Floating F}.

Ltac run_message :=
  unfold calculate_targets, bind, write_log, float, division, read_sql,
    redis_set, redis_publish, ret, raise; cbn.

(** Every way a seven-field message can end. *)
Lemma parse_msg_seven_cases (self : TargetsMinimal F) (msg : Message) (w : World F)
    (c0 c1 c2 c3 c4 c5 c6 : string) :
  split colon (data msg) = [c0; c1; c2; c3; c4; c5; c6] ->
  let key := targets_key (c0 +:+ ":" +:+ c1 +:+ ":" +:+ c2) in
  (exists e l qs,
     parse_msg self msg w =
       (Raise e, mkWorld (log w ++ l) (redis w) (published w) (executed w ++ qs))
     /\ (length qs <= 1)%nat) \/
  (exists ra_deg dec_deg fecenter r df l,
     float_of_string c4 = Some ra_deg /\ float_of_string c5 = Some dec_deg /\
     float_of_string c6 = Some fecenter /\ beam_radius fecenter = Some r /\
     engine self (length (executed w))
       (targets_query (query_bounds (deg2rad ra_deg) (deg2rad dec_deg) r)
                      ra_deg dec_deg r) = Some df /\
     parse_msg self msg w =
       (Return tt,
        mkWorld (log w ++ l)
                (<[key := format_targets df [("source_id", JString c3);
                                             ("ra", JNumber ra_deg);
                                             ("dec", JNumber dec_deg)]]>
                   (redis w))
                (published w ++ [(targets_channel self, key)])
                (executed w ++
                   [targets_query (query_bounds (deg2rad ra_deg) (deg2rad dec_deg) r)
                                  ra_deg dec_deg r]))).
Proof.
  intros Hsplit key. unfold parse_msg. rewrite Hsplit. run_message.
  destruct (float_of_string c4) as [ra_deg |] eqn:E4; cbn;
    [| left; exists (ValueError c4), [Info_Processing (data msg)], [];
       rewrite app_nil_r; split; [reflexivity | cbn; lia]].
  destruct (float_of_string c5) as [dec_deg |] eqn:E5; cbn;
    [| left; exists (ValueError c5), [Info_Processing (data msg)], [];
       rewrite app_nil_r; split; [reflexivity | cbn; lia]].
  destruct (float_of_string c6) as [fecenter |] eqn:E6; cbn;
    [| left; exists (ValueError c6), [Info_Processing (data msg)], [];
       rewrite app_nil_r; split; [reflexivity | cbn; lia]].
  destruct (beam_radius fecenter) as [r |] eqn:Er; cbn;
    [| left; exists ZeroDivisionError, ([Info_Processing (data msg)]
                                        ++ [Info_Calculating c3 ra_deg dec_deg]), [];
       rewrite app_nil_r, <- app_assoc; split; [reflexivity | cbn; lia]].
  destruct (engine self _ _) as [df |] eqn:Ee; cbn.
  - right. exists ra_deg, dec_deg, fecenter, r, df. eexists.
    repeat (split; [eassumption || reflexivity |]).
    rewrite <- !app_assoc. reflexivity.
  - left. eexists. eexists. eexists. rewrite <- !app_assoc.
    split; [reflexivity | cbn; lia].
Qed.

(** X15: Whenever [parse_msg] returns normally on a seven-field message,
    the three numeric fields parsed, the catalogue answered the query of
    this pointing with a dataframe, and Redis holds under
    [targets:<obsid>] the pointing followed by the entries of the array
    of that dataframe; every other key is as before, and the key was
    published last on the targets channel. *)
Theorem returned_message_was_stored (self : TargetsMinimal F) (msg : Message)
    (w w' : World F) (c0 c1 c2 c3 c4 c5 c6 : string) :
  split colon (data msg) = [c0; c1; c2; c3; c4; c5; c6] ->
  parse_msg self msg w = (Return tt, w') ->
  let key := targets_key (c0 +:+ ":" +:+ c1 +:+ ":" +:+ c2) in
  (exists ra_deg dec_deg fecenter r df,
     float_of_string c4 = Some ra_deg /\ float_of_string c5 = Some dec_deg /\
     float_of_string c6 = Some fecenter /\ beam_radius fecenter = Some r /\
     engine self (length (executed w))
       (targets_query (query_bounds (deg2rad ra_deg) (deg2rad dec_deg) r)
                      ra_deg dec_deg r) = Some df /\
     redis w' !! key =
       Some (JArray (JObject [("source_id", JString c3); ("ra", JNumber ra_deg);
                              ("dec", JNumber dec_deg)]
                     :: map (fun a => JObject (source_dict a)) (to_numpy df)))) /\
  (forall k, k <> key -> redis w' !! k = redis w !! k) /\
  published w' = published w ++ [(targets_channel self, key)].
Proof.
  intros Hsplit Hret key.
  destruct (parse_msg_seven_cases self msg w _ _ _ _ _ _ _ Hsplit)
    as [(e & l & qs & Hp & _)
       | (ra_deg & dec_deg & fe & r & df & l & H4 & H5 & H6 & Hr & He & Hp)];
    rewrite Hp in Hret; [discriminate Hret |].
  injection Hret as <-. cbn [redis published]. fold key.
  split; [| split].
  - exists ra_deg, dec_deg, fe, r, df.
    rewrite lookup_insert_eq, format_targets_array. auto 8.
  - intros k Hk. apply lookup_insert_ne. congruence.
  - reflexivity.
Qed.

(** X16: Two messages with the same observation id, both handled: after
    the second, the store is the store from before the first with the one
    key set to the payload of the second message (its pointing and the
    dataframe the catalogue returned for its query), so the payload of
    the first is gone; the key has been published twice. *)
Theorem repeated_observation_overwrites (self : TargetsMinimal F) (m1 m2 : Message)
    (w w1 w2 : World F) (c0 c1 c2 a3 a4 a5 a6 b3 b4 b5 b6 : string) :
  split colon (data m1) = [c0; c1; c2; a3; a4; a5; a6] ->
  split colon (data m2) = [c0; c1; c2; b3; b4; b5; b6] ->
  parse_msg self m1 w = (Return tt, w1) ->
  parse_msg self m2 w1 = (Return tt, w2) ->
  let key := targets_key (c0 +:+ ":" +:+ c1 +:+ ":" +:+ c2) in
  (exists ra_deg dec_deg fecenter r df,
     float_of_string b4 = Some ra_deg /\ float_of_string b5 = Some dec_deg /\
     float_of_string b6 = Some fecenter /\ beam_radius fecenter = Some r /\
     engine self (length (executed w) + 1)
       (targets_query (query_bounds (deg2rad ra_deg) (deg2rad dec_deg) r)
                      ra_deg dec_deg r) = Some df /\
     redis w2 =
       <[key := format_targets df [("source_id", JString b3); ("ra", JNumber ra_deg);
                                   ("dec", JNumber dec_deg)]]> (redis w)) /\
  published w2 = published w ++ [(targets_channel self, key); (targets_channel self, key)].
Proof.
  intros Hs1 Hs2 Hr1 Hr2 key.
  destruct (parse_msg_seven_cases self m1 w _ _ _ _ _ _ _ Hs1)
    as [(e & l & qs & Hp & _)
       | (ra1 & dec1 & fe1 & r1 & df1 & l1 & _ & _ & _ & _ & _ & Hp)];
    rewrite Hp in Hr1; [discriminate Hr1 |].
  injection Hr1 as <-.
  match type of Hr2 with
  | parse_msg _ _ ?w1 = _ =>
      destruct (parse_msg_seven_cases self m2 w1 _ _ _ _ _ _ _ Hs2)
        as [(e & l & qs & Hp2 & _)
           | (ra2 & dec2 & fe2 & r2 & df2 & l2 & H4 & H5 & H6 & Hr & He & Hp2)]
  end;
    rewrite Hp2 in Hr2; [discriminate Hr2 |].
  injection Hr2 as <-. cbn [redis published executed] in *. fold key.
  rewrite length_app in He. cbn [length] in He.
  split.
  - exists ra2, dec2, fe2, r2, df2. rewrite insert_insert_eq. auto 8.
  - rewrite <- app_assoc. reflexivity.
Qed.

(** X11: A zero centre frequency: the division raises, nothing is queried,
    stored or published, and the listener stops. *)
Theorem zero_frequency_stops_listener (self : TargetsMinimal F) (msg : Message)
    (w : World F) (c0 c1 c2 c3 c4 c5 c6 : string) (ra_deg dec_deg fecenter : F) :
  split colon (data msg) = [c0; c1; c2; c3; c4; c5; c6] ->
  float_of_string c4 = Some ra_deg ->
  float_of_string c5 = Some dec_deg ->
  float_of_string c6 = Some fecenter ->
  beam_radius fecenter = None ->
  let w' := mkWorld (log w ++ [Info_Processing (data msg);
                               Info_Calculating c3 ra_deg dec_deg])
                    (redis w) (published w) (executed w) in
  parse_msg self msg w = (Raise ZeroDivisionError, w') /\
  forall rest, listen_loop self (msg :: rest) w = Crashed ZeroDivisionError rest w'.
Proof.
  intros Hsplit H4 H5 H6 Hr w'.
  assert (Hp : parse_msg self msg w = (Raise ZeroDivisionError, w')).
  { unfold parse_msg. rewrite Hsplit. run_message.
    rewrite H4; cbn. rewrite H5; cbn. rewrite H6; cbn. rewrite Hr; cbn.
    unfold w'. rewrite <- app_assoc. reflexivity. }
  split; [exact Hp |]. intros rest. apply listen_loop_raise. exact Hp.
Qed.

(** X17: The loop on a sequence of messages followed by another: if the first
    sequence is handled the loop goes on with the second from the world
    reached, and if it crashes the second is never read. *)
Theorem listen_loop_app (self : TargetsMinimal F) (msgs1 msgs2 : list Message) (w : World F) :
  listen_loop self (msgs1 ++ msgs2) w =
    match listen_loop self msgs1 w with
    | Listening w' => listen_loop self msgs2 w'
    | Crashed e unread w' => Crashed e (unread ++ msgs2) w'
    end.
Proof.
  revert w. induction msgs1 as [| msg rest IH]; intros w; [reflexivity |].
  cbn [listen_loop app].
  destruct (parse_msg self msg w) as [[[] | e] w']; [apply IH | reflexivity].
Qed.

(** What one message can do to the world. *)
Lemma parse_msg_effect (self : TargetsMinimal F) (msg : Message) (w : World F) :
  let w' := snd (parse_msg self msg w) in
  (exists l, log w' = log w ++ l) /\
  (exists qs, executed w' = executed w ++ qs /\ (length qs <= 1)%nat) /\
  ((redis w' = redis w /\ published w' = published w) \/
   (exists key v, redis w' = <[key := v]> (redis w) /\
                  published w' = published w ++ [(targets_channel self, key)])).
Proof.
  cbv zeta.
  destruct (Nat.eq_dec (length (split colon (data msg))) 7) as [H7 | Hne].
  - destruct (split colon (data msg))
      as [| c0 [| c1 [| c2 [| c3 [| c4 [| c5 [| c6 [| c7 l]]]]]]]] eqn:Hsplit;
      try discriminate H7.
    destruct (parse_msg_seven_cases self msg w _ _ _ _ _ _ _ Hsplit)
      as [(e & l & qs & Hp & Hqs) | (ra & dec & fe & r & df & l & _ & _ & _ & _ & _ & Hp)];
      rewrite Hp; cbn [snd log redis published executed].
    + split; [eauto |]. split; [eauto |]. left. auto.
    + split; [eauto |]. split; [eexists [_]; split; [reflexivity | cbn; lia] |].
      right. eauto.
  - rewrite (parse_msg_unrecognised self msg w Hne); cbn [snd log redis published executed].
    split; [eauto |]. split; [exists []; rewrite app_nil_r; split; [reflexivity | cbn; lia] |].
    left. auto.
Qed.

Lemma listen_loop_cons_world (self : TargetsMinimal F) (msg : Message)
    (rest : list Message) (w : World F) :
  world_of (listen_loop self (msg :: rest) w) = snd (parse_msg self msg w) \/
  world_of (listen_loop self (msg :: rest) w) =
    world_of (listen_loop self rest (snd (parse_msg self msg w))).
Proof.
  cbn [listen_loop]. destruct (parse_msg self msg w) as [[[] | e] w']; cbn; auto.
Qed.


Lemma notifications_stored_step (self : TargetsMinimal F) (msg : Message) (w : World F) :
  notifications_stored self w ->
  notifications_stored self (snd (parse_msg self msg w)).
Proof.
  intros Hinv. unfold notifications_stored in *.
  destruct (parse_msg_effect self msg w)
    as (_ & _ & [[Hr Hp] | (key & v & Hr & Hp)]); rewrite Hr, Hp; [exact Hinv |].
  apply Forall_app. split.
  - eapply Forall_impl; [exact Hinv |]. intros [ch k] [Hch Hk]; cbn in *.
    split; [exact Hch |].
    destruct (decide (key = k)) as [-> | Hne].
    + rewrite lookup_insert_eq. eauto.
    + rewrite lookup_insert_ne by exact Hne. exact Hk.
  - repeat constructor; cbn. rewrite lookup_insert_eq. eauto.
Qed.

Lemma notifications_stored_loop (self : TargetsMinimal F) (msgs : list Message) (w : World F) :
  notifications_stored self w ->
  notifications_stored self (world_of (listen_loop self msgs w)).
Proof.
  revert w. induction msgs as [| msg rest IH]; intros w Hinv; [exact Hinv |].
  pose proof (notifications_stored_step self msg w Hinv) as Hstep.
  cbn [listen_loop]. destruct (parse_msg self msg w) as [[[] | e] w']; cbn in *.
  - apply IH. exact Hstep.
  - exact Hstep.
Qed.

(** X18: The listener keeps the promise behind the notifications: if every
    notification sent before [start] names a stored key, so does every
    notification sent by the time the listener waits again or has
    stopped. *)
Theorem start_keeps_notifications_stored (self : TargetsMinimal F)
    (msgs : list Message) (w : World F) :
  notifications_stored self w ->
  notifications_stored self (world_of (start self msgs w)).
Proof.
  intros Hinv. unfold start, bind, write_log; cbn.
  apply notifications_stored_loop. exact Hinv.
Qed.

Lemma grows_loop (self : TargetsMinimal F) (msgs : list Message) (w : World F) :
  let w' := world_of (listen_loop self msgs w) in
  (exists l, log w' = log w ++ l) /\
  (exists p, published w' = published w ++ p /\ (length p <= length msgs)%nat) /\
  (exists qs, executed w' = executed w ++ qs /\ (length qs <= length msgs)%nat) /\
  dom (redis w) ⊆ dom (redis w').
Proof.
  revert w. induction msgs as [| msg rest IH]; intros w; cbv zeta.
  - cbn. split; [exists []; rewrite app_nil_r; reflexivity |].
    split; [exists []; rewrite app_nil_r; auto |].
    split; [exists []; rewrite app_nil_r; auto | reflexivity].
  - assert (Hstep :
      let w1 := snd (parse_msg self msg w) in
      (exists l, log w1 = log w ++ l) /\
      (exists p, published w1 = published w ++ p /\ (length p <= 1)%nat) /\
      (exists qs, executed w1 = executed w ++ qs /\ (length qs <= 1)%nat) /\
      dom (redis w) ⊆ dom (redis w1)).
    { destruct (parse_msg_effect self msg w)
        as (Hl & Hq & [[Hr Hp] | (key & v & Hr & Hp)]); cbv zeta; rewrite Hr, Hp.
      - split; [exact Hl |]. split; [exists []; rewrite app_nil_r; split; [reflexivity | cbn; lia] |].
        split; [exact Hq | reflexivity].
      - split; [exact Hl |]. split; [eexists; split; [reflexivity | cbn; lia] |].
        split; [exact Hq |]. rewrite dom_insert. apply union_subseteq_r. }
    cbv zeta in Hstep.
    destruct Hstep as ((l1 & Hl1) & (p1 & Hp1 & Hn1) & (q1 & Hq1 & Hm1) & Hd1).
    cbn [listen_loop length].
    destruct (parse_msg self msg w) as [[[] | e] w1]; cbn [snd world_of] in *.
    + destruct (IH w1) as ((l2 & Hl2) & (p2 & Hp2 & Hn2) & (q2 & Hq2 & Hm2) & Hd2).
      split; [exists (l1 ++ l2); rewrite Hl2, Hl1, app_assoc; reflexivity |].
      split; [exists (p1 ++ p2); rewrite Hp2, Hp1, app_assoc, length_app;
              split; [reflexivity | lia] |].
      split; [exists (q1 ++ q2); rewrite Hq2, Hq1, app_assoc, length_app;
              split; [reflexivity | lia] |].
      exact (transitivity Hd1 Hd2).
    + split; [eauto |]. split; [exists p1; split; [assumption | lia] |].
      split; [exists q1; split; [assumption | lia] | assumption].
Qed.

(** X19: [start] only adds: the log, the notifications and the queries of the
    world before are prefixes of those after, with at most one
    notification and one query per message, and no Redis key is ever
    removed. *)
Theorem start_only_adds (self : TargetsMinimal F) (msgs : list Message) (w : World F) :
  let w' := world_of (start self msgs w) in
  (exists l, log w' = log w ++ l) /\
  (exists p, published w' = published w ++ p /\ (length p <= length msgs)%nat) /\
  (exists qs, executed w' = executed w ++ qs /\ (length qs <= length msgs)%nat) /\
  dom (redis w) ⊆ dom (redis w').
Proof.
  cbv zeta. unfold start, bind, write_log; cbn.
  match goal with
  | |- context [listen_loop self msgs ?w0] =>
      destruct (grows_loop self msgs w0) as ((l & Hl) & Hp & Hq & Hd)
  end.
  cbn [log published executed redis] in Hl, Hp, Hq, Hd.
  split; [| repeat split; assumption].
  eexists. rewrite Hl, <- !app_assoc. reflexivity.
Qed.

End Effects.

(** ** More runs on the real numbers *)

Section MoreRuns.
Local Open Scope R_scope.

Lemma example_message_handled (w : World R) :
  parse_msg steady_selector example_message w =
    (Return tt,
     mkWorld (log w ++ [Info_Processing (data example_message)]
                    ++ [Info_Calculating "3C286" (Q2R 202.78) (Q2R 30.51)]
                    ++ [Info_ApplyingBoundingBox]
                    ++ [Info_Retrieved 1])
             (<[example_key := example_payload]> (redis w))
             (published w ++ [("targets", example_key)])
             (executed w ++ [example_query])).
Proof.
  rewrite (parse_msg_success steady_selector example_message w
             "MeerKAT" "array1" "169000000" "3C286" "202.78" "30.51" "1420.0"
             (Q2R 202.78) (Q2R 30.51) (Q2R 1420.0) example_radius
             [mkRow "4472832130942575872" (Q2R 202.5) (Q2R 30.25) (Q2R 12.5)]);
    try reflexivity.
  apply beam_radius_R, frequency_1420_nonzero.
Qed.

Lemma second_example_message_handled (w : World R) :
  parse_msg steady_selector second_example_message w =
    (Return tt,
     mkWorld (log w ++ [Info_Processing (data second_example_message)]
                    ++ [Info_Calculating "J1939-6342" (Q2R 294.85) (Q2R (- 63.71))]
                    ++ [Info_ApplyingBoundingBox]
                    ++ [Info_Retrieved 1])
             (<[example_key :=
                  format_targets
                    [mkRow "4472832130942575872" (Q2R 202.5) (Q2R 30.25) (Q2R 12.5)]
                    [("source_id", JString "J1939-6342"); ("ra", JNumber (Q2R 294.85));
                     ("dec", JNumber (Q2R (- 63.71)))]]> (redis w))
             (published w ++ [("targets", example_key)])
             (executed w ++
                [targets_query
                   (query_bounds (deg2rad (Q2R 294.85)) (deg2rad (Q2R (- 63.71)))
                                 example_radius)
                   (Q2R 294.85) (Q2R (- 63.71)) example_radius])).
Proof.
  rewrite (parse_msg_success steady_selector second_example_message w
             "MeerKAT" "array1" "169000000" "J1939-6342" "294.85" "-63.71" "1420.0"
             (Q2R 294.85) (Q2R (- 63.71)) (Q2R 1420.0) example_radius
             [mkRow "4472832130942575872" (Q2R 202.5) (Q2R 30.25) (Q2R 12.5)]);
    try reflexivity.
  apply beam_radius_R, frequency_1420_nonzero.
Qed.

Lemma returned_message_was_stored_witness :
  exists w',
    parse_msg steady_selector example_message empty_world = (Return tt, w') /\
    (exists ra_deg dec_deg fecenter r df,
       float_of_string "202.78" = Some ra_deg /\ float_of_string "30.51" = Some dec_deg /\
       float_of_string "1420.0" = Some fecenter /\ beam_radius fecenter = Some r /\
       engine steady_selector (length (executed (empty_world : World R)))
         (targets_query (query_bounds (deg2rad ra_deg) (deg2rad dec_deg) r)
                        ra_deg dec_deg r) = Some df /\
       redis w' !! targets_key ("MeerKAT" +:+ ":" +:+ "array1" +:+ ":" +:+ "169000000") =
         Some (JArray (JObject [("source_id", JString "3C286"); ("ra", JNumber ra_deg);
                                ("dec", JNumber dec_deg)]
                       :: map (fun a => JObject (source_dict a)) (to_numpy df)))) /\
    (forall k, k <> targets_key ("MeerKAT" +:+ ":" +:+ "array1" +:+ ":" +:+ "169000000") ->
               redis w' !! k = redis (empty_world : World R) !! k) /\
    published w' =
      published (empty_world : World R) ++
      [(targets_channel steady_selector,
        targets_key ("MeerKAT" +:+ ":" +:+ "array1" +:+ ":" +:+ "169000000"))].
Proof.
  pose proof (example_message_handled empty_world) as Hh.
  eexists. split; [exact Hh |].
  exact (returned_message_was_stored steady_selector example_message empty_world _
           "MeerKAT" "array1" "169000000" "3C286" "202.78" "30.51" "1420.0"
           eq_refl Hh).
Defined.

Lemma repeated_observation_overwrites_witness :
  exists w1 w2,
    parse_msg steady_selector example_message empty_world = (Return tt, w1) /\
    parse_msg steady_selector second_example_message w1 = (Return tt, w2) /\
    (exists ra_deg dec_deg fecenter r df,
       float_of_string "294.85" = Some ra_deg /\ float_of_string "-63.71" = Some dec_deg /\
       float_of_string "1420.0" = Some fecenter /\ beam_radius fecenter = Some r /\
       engine steady_selector (length (executed (empty_world : World R)) + 1)
         (targets_query (query_bounds (deg2rad ra_deg) (deg2rad dec_deg) r)
                        ra_deg dec_deg r) = Some df /\
       redis w2 =
         <[targets_key ("MeerKAT" +:+ ":" +:+ "array1" +:+ ":" +:+ "169000000") :=
             format_targets df [("source_id", JString "J1939-6342");
                                ("ra", JNumber ra_deg); ("dec", JNumber dec_deg)]]>
           (redis (empty_world : World R))) /\
    published w2 =
      published (empty_world : World R) ++
      [(targets_channel steady_selector,
        targets_key ("MeerKAT" +:+ ":" +:+ "array1" +:+ ":" +:+ "169000000"));
       (targets_channel steady_selector,
        targets_key ("MeerKAT" +:+ ":" +:+ "array1" +:+ ":" +:+ "169000000"))].
Proof.
  pose proof (example_message_handled empty_world) as Hh1.
  match type of Hh1 with
  | _ = (_, ?w1) => pose proof (second_example_message_handled w1) as Hh2
  end.
  eexists. eexists. split; [exact Hh1 |]. split; [exact Hh2 |].
  exact (repeated_observation_overwrites steady_selector example_message
           second_example_message empty_world _ _ "MeerKAT" "array1" "169000000"
           "3C286" "202.78" "30.51" "1420.0" "J1939-6342" "294.85" "-63.71" "1420.0"
           eq_refl eq_refl Hh1 Hh2).
Defined.

Lemma beam_radius_zero : beam_radius (Q2R 0.0) = None.
Proof.
  unfold beam_radius; cbn. unfold Rzerob.
  destruct (Req_dec_T (Q2R 0.0 * Q2R 1000000) 0) as [| Hne]; [reflexivity | exfalso].
  apply Hne. unfold Q2R; cbn. lra.
Qed.

Lemma zero_frequency_stops_listener_witness :
  parse_msg flaky_selector zero_frequency_message empty_world =
    (Raise ZeroDivisionError,
     mkWorld [Info_Processing (data zero_frequency_message);
              Info_Calculating "3C286" (Q2R 202.78) (Q2R 30.51)] ∅ [] []) /\
  forall rest,
    listen_loop flaky_selector (zero_frequency_message :: rest) empty_world =
    Crashed ZeroDivisionError rest
      (mkWorld [Info_Processing (data zero_frequency_message);
                Info_Calculating "3C286" (Q2R 202.78) (Q2R 30.51)] ∅ [] []).
Proof.
  apply (zero_frequency_stops_listener flaky_selector zero_frequency_message empty_world
           "MeerKAT" "array1" "169000000" "3C286" "202.78" "30.51" "0.0"
           (Q2R 202.78) (Q2R 30.51) (Q2R 0.0));
    try reflexivity.
  apply beam_radius_zero.
Defined.

Lemma start_keeps_notifications_stored_witness :
  notifications_stored steady_selector
    (world_of (start steady_selector
                 [example_message; six_field_message; non_numeric_message; example_message]
                 empty_world)).
Proof.
  apply (start_keeps_notifications_stored steady_selector). constructor.
Defined.

End MoreRuns.

(** ** Start-up *)

Section StartupProperties.
Context {F : Type} `{Floating F}.

Lemma read_config_file_cases (host : Host F) (config_file : string) (sw : StartupWorld) :
  let sw1 := mkStartupWorld (startup_lines sw) (opened sw ++ [config_file]) in
  (open_file host config_file = None /\
   read_config_file host config_file sw =
     (Started PyNone, startup_write Error_ConfigNotFound sw1)) \/
  (exists f E, open_file host config_file = Some f /\ safe_load host f = inr E /\
     read_config_file host config_file sw =
       (Started PyNone, startup_write (Error_Yaml E) sw1)) \/
  (exists f cfg, open_file host config_file = Some f /\ safe_load host f = inl cfg /\
     read_config_file host config_file sw =
       (match cfg with
        | PyDict entries =>
            match entries !! "mysql" with
            | Some section => Started section
            | None => Failed MysqlKeyError
            end
        | _ => Failed SubscriptTypeError
        end, sw1)).
Proof.
  cbv zeta. unfold read_config_file.
  destruct (open_file host config_file) as [f |]; [| left; auto].
  right. destruct (safe_load host f) as [cfg | E] eqn:Hload.
  - right. exists f, cfg. split; [reflexivity |]. split; [exact Hload |].
    destruct cfg as [| | | entries]; try reflexivity.
    destruct (entries !! "mysql"); reflexivity.
  - left. exists f, E. auto.
Qed.

(** X20: [__init__] returns an object only if the endpoint has exactly one
    colon, the configuration file opens, parses to a mapping, and that
    mapping has under 'mysql' a mapping that the engine accepts; the
    object then holds the two parts of the endpoint, the two channel
    names and that engine, and only the initial line was logged. *)
Theorem init_success (host : Host F)
    (redis_endpoint pointing targets config_file : string)
    (sw sw' : StartupWorld) (self : Selector F) :
  __init__ host redis_endpoint pointing targets config_file sw
    = (Started self, sw') ->
  split colon redis_endpoint = [redis_host self; redis_port self] /\
  (exists f entries section,
     open_file host config_file = Some f /\
     safe_load host f = inl (PyDict entries) /\
     entries !! "mysql" = Some (PyDict section) /\
     create_engine host section = Some (engine (listener self))) /\
  pointing_channel (listener self) = pointing /\
  targets_channel (listener self) = targets /\
  sw' = mkStartupWorld (startup_lines sw ++ [Info_Initialising])
                       (opened sw ++ [config_file]).
Proof.
  unfold __init__, configure_db. intros Hinit.
  destruct (split colon redis_endpoint) as [| h [| p [| x l]]]; try discriminate Hinit.
  match type of Hinit with
  | context [read_config_file host config_file ?s] =>
      destruct (read_config_file_cases host config_file s)
        as [[_ Hr] | [(f & E & _ & _ & Hr) | (f & cfg & Hopen & Hload & Hr)]];
        rewrite Hr in Hinit; try discriminate Hinit
  end.
  destruct cfg as [| | | entries]; try discriminate Hinit.
  destruct (entries !! "mysql") as [[| | | section] |] eqn:Hsec; try discriminate Hinit.
  destruct (create_engine host section) as [e |] eqn:He; try discriminate Hinit.
  injection Hinit as <- <-. cbn.
  split; [reflexivity |]. split; [| auto]. exists f, entries, section. auto.
Qed.

(** X21: A configuration file that cannot be opened or is not valid YAML does
    not stop [read_config_file]: the error is logged, the function
    returns [None], and [__init__] then fails with the [TypeError] of
    [URL( **None)]. *)
Theorem unreadable_config_fails_as_type_error (host : Host F)
    (redis_endpoint pointing_channel targets_channel config_file : string)
    (sw : StartupWorld) (h p : string) :
  split colon redis_endpoint = [h; p] ->
  open_file host config_file = None \/
    (exists f E, open_file host config_file = Some f /\ safe_load host f = inr E) ->
  exists line,
    __init__ host redis_endpoint pointing_channel targets_channel config_file sw =
      (Failed MappingTypeError,
       mkStartupWorld (startup_lines sw ++ [Info_Initialising; line])
                      (opened sw ++ [config_file])) /\
    (line = Error_ConfigNotFound /\ open_file host config_file = None \/
     exists f E, line = Error_Yaml E /\ open_file host config_file = Some f /\
                 safe_load host f = inr E).
Proof.
  intros Hsplit Hbad. unfold __init__, configure_db, read_config_file. rewrite Hsplit.
  destruct Hbad as [Hopen | (f & E & Hopen & Hload)].
  - rewrite Hopen. exists Error_ConfigNotFound. split; [| auto].
    unfold startup_write; cbn. rewrite <- app_assoc. reflexivity.
  - rewrite Hopen, Hload. exists (Error_Yaml E). split; [| eauto 6].
    unfold startup_write; cbn. rewrite <- app_assoc. reflexivity.
Qed.

(** X22: A configuration that parses but has no mapping under 'mysql' makes
    [__init__] fail without any line about it in the log: a missing key
    is a [KeyError], a document that is no mapping a [TypeError] of the
    subscript, a 'mysql' entry that is no mapping the [TypeError] of
    [URL( **cfg)]. *)
Theorem config_without_mysql_mapping_fails_silently (host : Host F)
    (redis_endpoint pointing_channel targets_channel config_file : string)
    (sw : StartupWorld) (h p f : string) (cfg : pyvalue) :
  split colon redis_endpoint = [h; p] ->
  open_file host config_file = Some f ->
  safe_load host f = inl cfg ->
  (forall entries section, cfg = PyDict entries ->
                           entries !! "mysql" <> Some (PyDict section)) ->
  exists e,
    __init__ host redis_endpoint pointing_channel targets_channel config_file sw =
      (Failed e,
       mkStartupWorld (startup_lines sw ++ [Info_Initialising])
                      (opened sw ++ [config_file])) /\
    e = match cfg with
        | PyDict entries =>
            match entries !! "mysql" with
            | Some _ => MappingTypeError
            | None => MysqlKeyError
            end
        | _ => SubscriptTypeError
        end.
Proof.
  intros Hsplit Hopen Hload Hno. unfold __init__, configure_db, read_config_file.
  rewrite Hsplit, Hopen, Hload.
  destruct cfg as [| | | entries]; try (eexists; split; reflexivity).
  destruct (entries !! "mysql") as [[| | | section] |] eqn:Hsec;
    try (eexists; split; reflexivity).
  exfalso. exact (Hno entries section eq_refl Hsec).
Qed.

(** X23: An endpoint that does not consist of exactly two colon-separated
    parts makes [__init__] fail with the [ValueError] of the unpacking,
    before the configuration file is touched. *)
Theorem bad_endpoint_fails_before_config (host : Host F)
    (redis_endpoint pointing_channel targets_channel config_file : string)
    (sw : StartupWorld) :
  occurrences colon redis_endpoint <> 1 ->
  __init__ host redis_endpoint pointing_channel targets_channel config_file sw =
    (Failed UnpackValueError,
     mkStartupWorld (startup_lines sw ++ [Info_Initialising]) (opened sw)).
Proof.
  intros Hocc. pose proof (split_length colon redis_endpoint) as Hlen.
  unfold __init__.
  destruct (split colon redis_endpoint) as [| h [| p [| x l]]]; try reflexivity.
  exfalso. apply Hocc. cbn in Hlen. lia.
Qed.

End StartupProperties.

Section StartupRuns.

Lemma example_host_starts :
  __init__ example_host "127.0.0.1:6379" "pointings" "targets" "config.yml"
    (mkStartupWorld [] []) =
  (Started (mkSelector "127.0.0.1" "6379"
              (mkTargetsMinimal "pointings" "targets" (fun _ _ => Some []))),
   mkStartupWorld [Info_Initialising] ["config.yml"]).
Proof. reflexivity. Qed.

Lemma init_success_witness :
  split colon "127.0.0.1:6379" = ["127.0.0.1"; "6379"] /\
  (exists f entries section,
     open_file example_host "config.yml" = Some f /\
     safe_load example_host f = inl (PyDict entries) /\
     entries !! "mysql" = Some (PyDict section) /\
     create_engine example_host section = Some (fun _ _ => Some [])) /\
  "pointings" = "pointings" /\ "targets" = "targets" /\
  mkStartupWorld [Info_Initialising] ["config.yml"] =
    mkStartupWorld ([] ++ [Info_Initialising]) ([] ++ ["config.yml"]).
Proof.
  exact (init_success example_host "127.0.0.1:6379" "pointings" "targets" "config.yml"
           (mkStartupWorld [] []) _ _ example_host_starts).
Defined.

Lemma unreadable_config_fails_as_type_error_witness :
  exists line,
    __init__ example_host "127.0.0.1:6379" "pointings" "targets" "missing.yml"
      (mkStartupWorld [] []) =
      (Failed MappingTypeError,
       mkStartupWorld ([] ++ [Info_Initialising; line]) ([] ++ ["missing.yml"])) /\
    (line = Error_ConfigNotFound /\ open_file example_host "missing.yml" = None \/
     exists f E, line = Error_Yaml E /\ open_file example_host "missing.yml" = Some f /\
                 safe_load example_host f = inr E).
Proof.
  apply (unreadable_config_fails_as_type_error example_host "127.0.0.1:6379" "pointings"
           "targets" "missing.yml" (mkStartupWorld [] []) "127.0.0.1" "6379");
    [reflexivity | left; reflexivity].
Defined.

Lemma config_without_mysql_mapping_fails_silently_witness :
  exists e,
    __init__ example_host "127.0.0.1:6379" "pointings" "targets" "redis.yml"
      (mkStartupWorld [] []) =
      (Failed e, mkStartupWorld ([] ++ [Info_Initialising]) ([] ++ ["redis.yml"])) /\
    e = MysqlKeyError.
Proof.
  destruct (config_without_mysql_mapping_fails_silently example_host "127.0.0.1:6379"
              "pointings" "targets" "redis.yml" (mkStartupWorld [] []) "127.0.0.1" "6379"
              "redis: {host: localhost}"
              (PyDict {[ "redis" := PyDict {[ "host" := PyScalar "localhost" ]} ]}))
    as (e & He & Hm);
    [reflexivity | reflexivity | reflexivity
     | intros entries section [= <-]; vm_compute; discriminate |].
  exists e. split; [exact He | rewrite Hm; reflexivity].
Defined.

Lemma bad_endpoint_fails_before_config_witness :
  __init__ example_host "localhost" "pointings" "targets" "config.yml"
    (mkStartupWorld [] []) =
  (Failed UnpackValueError, mkStartupWorld ([] ++ [Info_Initialising]) []).
Proof.
  apply (bad_endpoint_fails_before_config example_host "localhost"). cbn. lia.
Defined.

End StartupRuns.
